(** * trip_ai: the itinerary segmenter and story builder of [app/pdf_generator.py]

    A shallow embedding of [parse_section], [create_overview_table],
    [add_separator] and the story-building part of [generate_trip_pdf],
    together with the Python string, regular-expression and date primitives
    these functions call, followed by the properties of the segmentation
    and of the front matter. *)

From Stdlib Require Import String Ascii DecimalString NArith ZArith Bool Lia List.
Import ListNotations.
Open Scope string_scope.
Open Scope list_scope.

Set Implicit Arguments.

(** ** Python [str] values *)

(** A Python [str] is a sequence of Unicode code points. *)
Definition char := N.
Definition str := list char.

(** An ASCII literal as a [str]. *)
Definition lit (x : string) : str :=
  map N_of_ascii (list_ascii_of_string x).

Definition NL : char := 10%N.        (* '\n' *)
Definition SPACE : char := 32%N.     (* ' ' *)
Definition STAR : char := 42%N.      (* '*' *)
Definition DASH : char := 45%N.      (* '-' *)
Definition COLON : char := 58%N.     (* ':' *)
Definition BULLET : char := 0x2022%N. (* U+2022, the bullet sign *)

Definition in_ranges (tbl : list (N * N)) (c : char) : bool :=
  existsb (fun r => (fst r <=? c)%N && (c <=? snd r)%N) tbl.

(** [str.isspace] on one code point: the whitespace set that [str.strip()]
    removes (CPython's [_PyUnicode_IsWhitespace]). *)
Definition space_ranges : list (N * N) :=
  [ (0x9, 0xD); (0x1C, 0x20); (0x85, 0x85); (0xA0, 0xA0);
    (0x1680, 0x1680); (0x2000, 0x200A); (0x2028, 0x2029); (0x202F, 0x202F);
    (0x205F, 0x205F); (0x3000, 0x3000) ]%N.

Definition isspace : char -> bool := in_ranges space_ranges.

(** [\d] of the [re] module on a [str] pattern: the decimal digits, general
    category Nd (Unicode 14.0.0). *)
Definition decimal_ranges : list (N * N) :=
  [ (0x30, 0x39); (0x660, 0x669); (0x6F0, 0x6F9); (0x7C0, 0x7C9);
    (0x966, 0x96F); (0x9E6, 0x9EF); (0xA66, 0xA6F); (0xAE6, 0xAEF);
    (0xB66, 0xB6F); (0xBE6, 0xBEF); (0xC66, 0xC6F); (0xCE6, 0xCEF);
    (0xD66, 0xD6F); (0xDE6, 0xDEF); (0xE50, 0xE59); (0xED0, 0xED9);
    (0xF20, 0xF29); (0x1040, 0x1049); (0x1090, 0x1099); (0x17E0, 0x17E9);
    (0x1810, 0x1819); (0x1946, 0x194F); (0x19D0, 0x19D9); (0x1A80, 0x1A89);
    (0x1A90, 0x1A99); (0x1B50, 0x1B59); (0x1BB0, 0x1BB9); (0x1C40, 0x1C49);
    (0x1C50, 0x1C59); (0xA620, 0xA629); (0xA8D0, 0xA8D9); (0xA900, 0xA909);
    (0xA9D0, 0xA9D9); (0xA9F0, 0xA9F9); (0xAA50, 0xAA59); (0xABF0, 0xABF9);
    (0xFF10, 0xFF19); (0x104A0, 0x104A9); (0x10D30, 0x10D39); (0x11066, 0x1106F);
    (0x110F0, 0x110F9); (0x11136, 0x1113F); (0x111D0, 0x111D9); (0x112F0, 0x112F9);
    (0x11450, 0x11459); (0x114D0, 0x114D9); (0x11650, 0x11659); (0x116C0, 0x116C9);
    (0x11730, 0x11739); (0x118E0, 0x118E9); (0x11950, 0x11959); (0x11C50, 0x11C59);
    (0x11D50, 0x11D59); (0x11DA0, 0x11DA9); (0x16A60, 0x16A69); (0x16AC0, 0x16AC9);
    (0x16B50, 0x16B59); (0x1D7CE, 0x1D7FF); (0x1E140, 0x1E149); (0x1E2F0, 0x1E2F9);
    (0x1E950, 0x1E959); (0x1FBF0, 0x1FBF9) ]%N.

Definition isdecimal : char -> bool := in_ranges decimal_ranges.

(** [str.isdigit] on one code point: Numeric_Type Digit or Decimal
    (Unicode 14.0.0); superscripts and circled digits count, unlike for [\d]. *)
Definition digit_ranges : list (N * N) :=
  [ (0x30, 0x39); (0xB2, 0xB3); (0xB9, 0xB9); (0x660, 0x669);
    (0x6F0, 0x6F9); (0x7C0, 0x7C9); (0x966, 0x96F); (0x9E6, 0x9EF);
    (0xA66, 0xA6F); (0xAE6, 0xAEF); (0xB66, 0xB6F); (0xBE6, 0xBEF);
    (0xC66, 0xC6F); (0xCE6, 0xCEF); (0xD66, 0xD6F); (0xDE6, 0xDEF);
    (0xE50, 0xE59); (0xED0, 0xED9); (0xF20, 0xF29); (0x1040, 0x1049);
    (0x1090, 0x1099); (0x1369, 0x1371); (0x17E0, 0x17E9); (0x1810, 0x1819);
    (0x1946, 0x194F); (0x19D0, 0x19DA); (0x1A80, 0x1A89); (0x1A90, 0x1A99);
    (0x1B50, 0x1B59); (0x1BB0, 0x1BB9); (0x1C40, 0x1C49); (0x1C50, 0x1C59);
    (0x2070, 0x2070); (0x2074, 0x2079); (0x2080, 0x2089); (0x2460, 0x2468);
    (0x2474, 0x247C); (0x2488, 0x2490); (0x24EA, 0x24EA); (0x24F5, 0x24FD);
    (0x24FF, 0x24FF); (0x2776, 0x277E); (0x2780, 0x2788); (0x278A, 0x2792);
    (0xA620, 0xA629); (0xA8D0, 0xA8D9); (0xA900, 0xA909); (0xA9D0, 0xA9D9);
    (0xA9F0, 0xA9F9); (0xAA50, 0xAA59); (0xABF0, 0xABF9); (0xFF10, 0xFF19);
    (0x104A0, 0x104A9); (0x10A40, 0x10A43); (0x10D30, 0x10D39); (0x10E60, 0x10E68);
    (0x11052, 0x1105A); (0x11066, 0x1106F); (0x110F0, 0x110F9); (0x11136, 0x1113F);
    (0x111D0, 0x111D9); (0x112F0, 0x112F9); (0x11450, 0x11459); (0x114D0, 0x114D9);
    (0x11650, 0x11659); (0x116C0, 0x116C9); (0x11730, 0x11739); (0x118E0, 0x118E9);
    (0x11950, 0x11959); (0x11C50, 0x11C59); (0x11D50, 0x11D59); (0x11DA0, 0x11DA9);
    (0x16A60, 0x16A69); (0x16AC0, 0x16AC9); (0x16B50, 0x16B59); (0x1D7CE, 0x1D7FF);
    (0x1E140, 0x1E149); (0x1E2F0, 0x1E2F9); (0x1E950, 0x1E959); (0x1F100, 0x1F10A);
    (0x1FBF0, 0x1FBF9) ]%N.

Definition isdigit : char -> bool := in_ranges digit_ranges.

(** Truth value of a [str] or a [list]: non-empty. *)
Definition truthy {A : Type} (l : list A) : bool :=
  match l with [] => false | _ :: _ => true end.

Definition mem (c : char) (cs : str) : bool := existsb (N.eqb c) cs.

(** [lstrip]/[rstrip] remove a run of characters from one end. *)
Fixpoint lstrip_by (p : char -> bool) (s : str) : str :=
  match s with
  | [] => []
  | c :: s' => if p c then lstrip_by p s' else s
  end.

Definition rstrip_by (p : char -> bool) (s : str) : str :=
  rev (lstrip_by p (rev s)).

(** [s.strip()] *)
Definition strip (s : str) : str := rstrip_by isspace (lstrip_by isspace s).

(** [s.lstrip(chars)]: every leading character that occurs in [chars]. *)
Definition lstrip (chars s : str) : str := lstrip_by (fun c => mem c chars) s.

(** [s.split(sep)] for a one-character separator: never the empty list. *)
Fixpoint split (sep : char) (s : str) : list str :=
  match s with
  | [] => [[]]
  | c :: s' =>
      if (c =? sep)%N then [] :: split sep s'
      else match split sep s' with
           | [] => [[c]]
           | piece :: pieces => (c :: piece) :: pieces
           end
  end.

(** [sep.join(pieces)] *)
Fixpoint join (sep : str) (pieces : list str) : str :=
  match pieces with
  | [] => []
  | [p] => p
  | p :: ps => p ++ sep ++ join sep ps
  end.

(** [s.startswith(prefix)] and its tuple form. *)
Fixpoint startswith (prefix s : str) : bool :=
  match prefix, s with
  | [], _ => true
  | _ :: _, [] => false
  | a :: prefix', c :: s' => (a =? c)%N && startswith prefix' s'
  end.

Definition startswith_any (prefixes : list str) (s : str) : bool :=
  existsb (fun p => startswith p s) prefixes.

(** [str(n)] for an [int]. *)
Definition int_str (z : Z) : str := lit (NilZero.string_of_int (Z.to_int z)).

(** ["%0<width>d" % z] *)
Definition zero_padded (width : nat) (z : Z) : str :=
  let digits := lit (NilZero.string_of_uint (N.to_uint (Z.abs_N z))) in
  if (z <? 0)%Z
  then DASH :: repeat 48%N (Nat.pred width - length digits) ++ digits
  else repeat 48%N (width - length digits) ++ digits.

(** ** [datetime.date] *)

Record date := { year : Z; month : Z; day : Z }.

Definition is_leap (y : Z) : bool :=
  ((y mod 4 =? 0) && (negb (y mod 100 =? 0) || (y mod 400 =? 0)))%Z.

Definition days_before_year (y : Z) : Z :=
  let y := (y - 1)%Z in (y * 365 + y / 4 - y / 100 + y / 400)%Z.

Definition DAYS_BEFORE_MONTH : list Z :=
  [-1; 0; 31; 59; 90; 120; 151; 181; 212; 243; 273; 304; 334]%Z.

Definition days_before_month (y m : Z) : Z :=
  (nth (Z.to_nat m) DAYS_BEFORE_MONTH 0
   + (if (2 <? m) && is_leap y then 1 else 0))%Z.

(** [d.toordinal()] *)
Definition toordinal (d : date) : Z :=
  (days_before_year (year d) + days_before_month (year d) (month d) + day d)%Z.

(** [(a - b).days] *)
Definition days_between (a b : date) : Z := (toordinal a - toordinal b)%Z.

(** [str(d)], the ISO form that an f-string and a table cell show. *)
Definition date_str (d : date) : str :=
  zero_padded 4 (year d) ++ [DASH] ++ zero_padded 2 (month d)
  ++ [DASH] ++ zero_padded 2 (day d).

(** ** The day-marker pattern [Day \d+:|DAY \d+:] *)

(** [s] without the leading literal [l], when it starts with it. *)
Fixpoint after_literal (l s : str) : option str :=
  match l, s with
  | [], _ => Some s
  | _ :: _, [] => None
  | a :: l', c :: s' => if (a =? c)%N then after_literal l' s' else None
  end.

(** [\d*:] at the head of [s]. *)
Fixpoint digits_colon (s : str) : bool :=
  match s with
  | [] => false
  | c :: s' => (c =? COLON)%N || (isdecimal c && digits_colon s')
  end.

(** [\d+:] at the head of [s]. *)
Definition digits1_colon (s : str) : bool :=
  match s with
  | [] => false
  | c :: s' => isdecimal c && digits_colon s'
  end.

Definition match_alt (word s : str) : bool :=
  match after_literal word s with
  | Some rest => digits1_colon rest
  | None => false
  end.

(** [re.match(r'Day \d+:|DAY \d+:', s)] as a truth value; also the
    lookahead [(?=Day \d+:|DAY \d+:)] tried at the head of [s]. *)
Definition match_day (s : str) : bool :=
  match_alt (lit "Day ") s || match_alt (lit "DAY ") s.

(** [re.split] on the lookahead: the pattern matches the empty string at
    every position where a marker starts, and the text is cut at each of
    them, position 0 included (which leaves an empty first piece).
    [split_from s] is the piece that starts at the head of [s], which is not
    tried as a cut point, with the pieces that follow it. *)
Fixpoint split_from (s : str) : str * list str :=
  match s with
  | [] => ([], [])
  | c :: s' =>
      let (piece, pieces) := split_from s' in
      if match_day s' then ([c], piece :: pieces) else (c :: piece, pieces)
  end.

Definition re_split_day (s : str) : list str :=
  let (piece, pieces) := split_from s in
  if match_day s then [] :: piece :: pieces else piece :: pieces.

(** ** [parse_section] *)

(** A section dictionary: the keys ['header'], ['points'] and ['info']. *)
Record section := { header : str; points : list str; info : str }.

Definition set_info (s : section) (i : str) : section :=
  {| header := header s; points := points s; info := i |}.

Definition append_point (s : section) (p : str) : section :=
  {| header := header s; points := points s ++ [p]; info := info s |}.

(** The locals of [parse_section] that the loop updates. *)
Record pstate := {
  sections : list section;
  current_section : section;
  info_block : list str
}.

Definition bullet_markers : list str := [[BULLET]; [DASH]; [STAR]].

(** [':' in line and not any(char.isdigit() for char in line.split(':')[0])] *)
Definition is_header_line (line : str) : bool :=
  mem COLON line && negb (existsb isdigit (hd [] (split COLON line))).

(** [current_section['header'] or current_section['points']] *)
Definition qualifies (s : section) : bool :=
  truthy (header s) || truthy (points s).

Definition flush (st : pstate) : list section :=
  if qualifies (current_section st)
  then sections st ++ [current_section st]
  else sections st.

Section Segmenter.

(** [utils.clean_text] is imported from a module that is not part of the
    sources at hand; [parse_section] is taken over any such function. *)
Variable clean_text : str -> str.

(** The point stored for a bullet line. *)
Definition bullet_point (line : str) : str :=
  clean_text (lstrip [BULLET; DASH; STAR; SPACE] line).

(** One turn of the [for line in lines] loop. *)
Definition consume (st : pstate) (raw : str) : pstate :=
  let line := strip raw in
  if negb (truthy line) then
    if truthy (info_block st)
    then {| sections := sections st;
            current_section :=
              set_info (current_section st) (join [SPACE] (info_block st));
            info_block := [] |}
    else st
  else if is_header_line line then
    {| sections := flush st;
       current_section := {| header := line; points := []; info := [] |};
       info_block := [] |}
  else if startswith_any bullet_markers line then
    let point := bullet_point line in
    if truthy point
    then {| sections := sections st;
            current_section := append_point (current_section st) point;
            info_block := info_block st |}
    else st
  else
    {| sections := sections st;
       current_section := current_section st;
       info_block := info_block st ++ [line] |}.

Definition initial : pstate :=
  {| sections := [];
     current_section := {| header := []; points := []; info := [] |};
     info_block := [] |}.

(** The two statements after the loop. *)
Definition finish (st : pstate) : list section :=
  let st' :=
    if truthy (info_block st)
    then {| sections := sections st;
            current_section :=
              set_info (current_section st) (join [SPACE] (info_block st));
            info_block := info_block st |}
    else st in
  flush st'.

Definition parse_lines (lines : list str) : list section :=
  finish (fold_left consume lines initial).

Definition parse_section (content : str) : list section :=
  parse_lines (split NL content).

End Segmenter.

(** Modelled from the spec: the collapsing of the whitespace inside a text,
    as the spec describes it for [utils.clean_text], which is not among
    the sources: a run of whitespace becomes one space. *)
Fixpoint squeeze (in_space : bool) (s : str) : str :=
  match s with
  | [] => []
  | c :: s' =>
      if isspace c
      then if in_space then squeeze true s' else SPACE :: squeeze true s'
      else c :: squeeze false s'
  end.

(** Modelled from the spec: [utils.clean_text], which is not among the
    sources; the spec describes it as a text-cleaning pass that trims and
    collapses internal whitespace.  It is used only to run [parse_section]
    on concrete inputs. *)
Definition clean_text_spec (s : str) : str := squeeze false (strip s).

(** ** The story *)

(** The paragraph styles that [create_custom_styles] registers. *)
Inductive style_name :=
| CustomTitle | CustomSubtitle | DayHeader | SectionHeader
| SubsectionHeader | BulletPoint | InfoBox | Footer.

Inductive cell := CellStr (s : str) | CellDate (d : date).

Inductive style_arg :=
| ArgNum (n : Z) | ArgColor (hex : string) | ArgName (name : string).

(** One [TableStyle] command: name, first cell, last cell, arguments. *)
Record table_cmd := {
  cmd : string;
  cmd_from : Z * Z;
  cmd_to : Z * Z;
  cmd_args : list style_arg
}.

Inductive flowable :=
| Paragraph (text : str) (style : style_name)
| Spacer (width height : Z)
| Table (data : list (list cell)) (colWidths : list Z)
        (rowHeights : option (list Z)) (style : list table_cmd).

Definition story := list flowable.

Definition whole := ((0, 0), (-1, -1))%Z.

Definition tcmd (name : string) (range : (Z * Z) * (Z * Z))
    (args : list style_arg) : table_cmd :=
  {| cmd := name; cmd_from := fst range; cmd_to := snd range;
     cmd_args := args |}.

Definition separator_rule (width : Z) (color : string) : flowable :=
  Table [[CellStr []]] [width] (Some [2%Z])
    [ tcmd "LINEABOVE" whole [ArgNum 1; ArgColor color];
      tcmd "TOPPADDING" whole [ArgNum 5];
      tcmd "BOTTOMPADDING" whole [ArgNum 5] ].

(** [add_separator(story, width, color)] appends the rule and a spacer. *)
Definition add_separator (st : story) (width : Z) (color : string) : story :=
  (st ++ [separator_rule width color]) ++ [Spacer 1 10].

Definition default_separator_color : string := "#e0e0e0".

Record trip_details := {
  td_start_location : str;
  td_destination : str;
  td_start_date : date;
  td_end_date : date;
  td_duration : Z
}.

Definition overview_data (td : trip_details) : list (list cell) :=
  [ [CellStr (lit "Trip Summary"); CellStr []];
    [CellStr (lit "Departure"); CellStr (td_start_location td)];
    [CellStr (lit "Destination"); CellStr (td_destination td)];
    [CellStr (lit "Start Date"); CellDate (td_start_date td)];
    [CellStr (lit "End Date"); CellDate (td_end_date td)];
    [CellStr (lit "Duration");
     CellStr (int_str (td_duration td) ++ lit " days")] ].

Definition create_overview_table (td : trip_details) : flowable :=
  Table (overview_data td) [120; 300]%Z None
    [ tcmd "BACKGROUND" ((0, 0), (-1, 0))%Z [ArgColor "#1a237e"];
      tcmd "TEXTCOLOR" ((0, 0), (-1, 0))%Z [ArgName "white"];
      tcmd "ALIGN" whole [ArgName "LEFT"];
      tcmd "FONTNAME" whole [ArgName "ArialUnicode"];
      tcmd "FONTSIZE" ((0, 0), (-1, 0))%Z [ArgNum 14];
      tcmd "FONTSIZE" ((0, 1), (-1, -1))%Z [ArgNum 12];
      tcmd "TOPPADDING" whole [ArgNum 6];
      tcmd "BOTTOMPADDING" whole [ArgNum 6];
      tcmd "GRID" whole [ArgNum 1; ArgColor "#e0e0e0"];
      tcmd "BACKGROUND" ((0, 1), (-1, -1))%Z [ArgColor "#f5f5f5"] ].

Definition TRIP_OVERVIEW : str := lit "Trip Overview".

Section Builder.

Variable clean_text : str -> str.

(** The body of [for section in sections]. *)
Definition add_section (st : story) (s : section) : story :=
  let st :=
    if truthy (header s)
    then st ++ [Paragraph (header s) SectionHeader] else st in
  let st :=
    if truthy (info s) then st ++ [Paragraph (info s) InfoBox] else st in
  let st :=
    fold_left
      (fun st point =>
         st ++ [Paragraph (BULLET :: SPACE :: point) BulletPoint])
      (points s) st in
  st ++ [Spacer 1 8].

(** The header and the content that the loop takes from a chunk. *)
Definition day_header_content (day : str) : str * str :=
  if match_day day
  then (hd [] (split NL day), join [NL] (tl (split NL day)))
  else (TRIP_OVERVIEW, day).

(** The body of [for day in days]. *)
Definition add_day (st : story) (day : str) : story :=
  if truthy (strip day) then
    let (header, content) := day_header_content day in
    let st := st ++ [Paragraph header DayHeader] in
    let st := fold_left add_section (parse_section clean_text content) st in
    add_separator st 450 default_separator_color
  else st.

(** The story before the loop over the days. *)
Definition front_matter (start_location destination : str)
    (start_date end_date : date) : story :=
  let st : story := [] in
  let title :=
    lit "Travel Itinerary" ++ [NL] ++ start_location ++ lit " to "
    ++ destination in
  let st := st ++ [Paragraph title CustomTitle] in
  let date_range :=
    lit "Journey Dates: " ++ date_str start_date ++ lit " - "
    ++ date_str end_date in
  let st := st ++ [Paragraph date_range CustomSubtitle] in
  let details :=
    {| td_start_location := start_location;
       td_destination := destination;
       td_start_date := start_date;
       td_end_date := end_date;
       td_duration := (days_between end_date start_date + 1)%Z |} in
  let st := st ++ [create_overview_table details] in
  let st := st ++ [Spacer 1 20] in
  add_separator st 450 default_separator_color.

(** [generate_trip_pdf], as the story it hands to [doc.build]; the
    temporary file and the rendering are the layout engine's. *)
Definition generate_trip_pdf (trip_plan start_location destination : str)
    (start_date end_date : date) : story :=
  let st := front_matter start_location destination start_date end_date in
  let days := re_split_day trip_plan in
  fold_left add_day days st.

End Builder.

(** The texts of the day-header paragraphs of a story, in order: the
    labels of the day blocks it holds. *)
Fixpoint day_headers (st : story) : list str :=
  match st with
  | [] => []
  | Paragraph text DayHeader :: st' => text :: day_headers st'
  | _ :: st' => day_headers st'
  end.

(** Lines of text joined by line breaks, for concrete inputs. *)
Definition text (lines : list string) : str := join [NL] (map lit lines).

(** ** Reading the pieces of a split *)

(** Start offsets of consecutive pieces, the first one starting at [from]. *)
Fixpoint offsets (from : nat) (pieces : list str) : list nat :=
  match pieces with
  | [] => []
  | p :: ps => from :: offsets (from + length p) ps
  end.

(** The offsets at which a text was cut into [pieces]. *)
Definition cut_points (pieces : list str) : list nat :=
  tl (offsets 0 pieces).

(** The offsets of a text at which a day marker starts. *)
Definition marker_positions (s : str) : list nat :=
  filter (fun p => match_day (skipn p s)) (seq 0 (length s)).

Fixpoint marks_from (k : nat) (s : str) : list nat :=
  match s with
  | [] => []
  | _ :: s' => (if match_day s then [k] else []) ++ marks_from (S k) s'
  end.

Definition first_line (s : str) : str := hd [] (split NL s).

(** The first value, in a story, of the table row that starts with [label]. *)
Fixpoint str_eqb (a b : str) : bool :=
  match a, b with
  | [], [] => true
  | x :: a', y :: b' => (x =? y)%N && str_eqb a' b'
  | _, _ => false
  end.

Fixpoint row_value (label : str) (rows : list (list cell)) : option cell :=
  match rows with
  | [] => None
  | (CellStr l :: v :: _) :: rows' =>
      if str_eqb l label then Some v else row_value label rows'
  | _ :: rows' => row_value label rows'
  end.

Fixpoint shown_value (label : str) (st : story) : option cell :=
  match st with
  | [] => None
  | Table rows _ _ _ :: st' =>
      match row_value label rows with
      | Some v => Some v
      | None => shown_value label st'
      end
  | _ :: st' => shown_value label st'
  end.

(** The lines of a text that begin with a day marker. *)
Definition marker_lines (s : str) : list str :=
  filter match_day (split NL s).

(** A marker read without regard to the case of its word, at the start of
    a line: the boundary rule in its stated form, to be compared with
    [marker_positions]. *)
Definition lower (c : char) : char :=
  if (65 <=? c)%N && (c <=? 90)%N then (c + 32)%N else c.

Definition match_day_nocase (s : str) : bool :=
  match_alt (lit "day ") (map lower (firstn 4 s) ++ skipn 4 s).

Definition at_line_start (s : str) (p : nat) : bool :=
  match p with
  | 0 => true
  | S q => match nth_error s q with
           | Some c => (c =? NL)%N
           | None => false
           end
  end.

Definition line_start_marker (s : str) (p : nat) : bool :=
  at_line_start s p && match_day_nocase (skipn p s).

Definition june_1 : date := {| year := 2024; month := 6; day := 1 |}.
Definition jan_1 : date := {| year := 2024; month := 1; day := 1 |}.
Definition jan_3 : date := {| year := 2024; month := 1; day := 3 |}.

(** ** Reading the body of a section *)

(** The lines of a body are taken stripped, as the loop sees them, and none
    of them is a header line. *)

(** The points that the bullet lines of a body leave. *)
Definition body_points (clean_text : str -> str) (body : list str)
    : list str :=
  filter truthy
    (map (bullet_point clean_text)
       (filter (startswith_any bullet_markers) body)).

Definition prepend (buf : list str) (blocks : list (list str))
    : list (list str) :=
  match blocks with
  | [] => [buf]
  | b :: bs => (buf ++ b) :: bs
  end.

(** The info blocks of a body: its lines that are neither blank nor bullet
    lines, cut at the blank lines.  The last block is the one that no blank
    line has closed yet. *)
Fixpoint info_blocks (body : list str) : list (list str) :=
  match body with
  | [] => [[]]
  | l :: body' =>
      if negb (truthy l) then [] :: info_blocks body'
      else if startswith_any bullet_markers l then info_blocks body'
      else prepend [l] (info_blocks body')
  end.

Definition pending_block (body : list str) : list str :=
  last (info_blocks body) [].

Definition last_info_block (body : list str) : list str :=
  last (filter truthy (info_blocks body)) [].

(** All the info lines of a body, the join of which is what the info field
    is stated to be. *)
Definition info_lines (body : list str) : list str :=
  filter (fun l => truthy l && negb (startswith_any bullet_markers l)) body.

(** The info that the blocks seen so far leave, [i] being the one before. *)
Definition pick (i : str) (blocks : list (list str)) : str :=
  match filter truthy blocks with
  | [] => i
  | _ :: _ => join [SPACE] (last (filter truthy blocks) [])
  end.

(** A state with [done] put before its sections. *)
Definition after_sections (done : list section) (st : pstate) : pstate :=
  {| sections := done ++ sections st;
     current_section := current_section st;
     info_block := info_block st |}.

(** A section that has a header or a point. *)
Definition kept (s : section) : Prop := header s <> [] \/ points s <> [].

(** A section none of whose points is empty, and a state all of whose
    sections are so. *)
Definition solid (s : section) : Prop := ~ In [] (points s).

Definition all_solid (st : pstate) : Prop :=
  Forall solid (sections st) /\ solid (current_section st).

(** A bullet line without its first character and the whitespace around
    the rest: the stripping of a single marker. *)
Definition single_marker_stripped (line : str) : str := strip (tl line).

(** ** Reading a state of the loop *)

(** The headers that a state holds, in order: those of the sections put out
    and the one of the current section, the empty ones left out. *)
Definition header_trace (st : pstate) : list str :=
  filter truthy (map header (sections st))
  ++ (if truthy (header (current_section st))
      then [header (current_section st)] else []).

(** The points that a state holds, in order. *)
Definition point_trace (st : pstate) : list str :=
  concat (map points (sections st)) ++ points (current_section st).

(** Only the first section of a state can be without a header. *)
Definition headed_after_first (st : pstate) : Prop :=
  Forall (fun s => header s <> []) (tl (sections st))
  /\ (header (current_section st) = [] -> sections st = []).

(** A line that leaves a point: a bullet line that is not a header line. *)
Definition is_point_line (line : str) : bool :=
  negb (is_header_line line) && startswith_any bullet_markers line.

(** A line that goes to the info buffer. *)
Definition is_info_line (line : str) : bool :=
  truthy line && negb (is_header_line line)
  && negb (startswith_any bullet_markers line).

(** An info field that is empty or the space-join of info lines of [lines],
    one at least. *)
Definition info_from (lines : list str) (i : str) : Prop :=
  i = [] \/
  exists block,
    block <> [] /\
    Forall (fun l => is_info_line l = true /\ In l lines) block /\
    i = join [SPACE] block.

Definition info_sound (lines : list str) (st : pstate) : Prop :=
  Forall (fun l => is_info_line l = true /\ In l lines) (info_block st)
  /\ info_from lines (info (current_section st))
  /\ Forall (fun s => info_from lines (info s)) (sections st).

(** ** Reading a story *)

Definition style_code (s : style_name) : nat :=
  match s with
  | CustomTitle => 0 | CustomSubtitle => 1 | DayHeader => 2
  | SectionHeader => 3 | SubsectionHeader => 4 | BulletPoint => 5
  | InfoBox => 6 | Footer => 7
  end.

(** The texts of the paragraphs of one style, in order. *)
Definition texts_of (sty : style_name) (st : story) : list str :=
  flat_map
    (fun f => match f with
              | Paragraph t s =>
                  if Nat.eqb (style_code s) (style_code sty) then [t] else []
              | _ => []
              end) st.

(** The sections of all the day blocks of a plan, in order. *)
Definition day_sections (clean_text : str -> str) (plan : str)
    : list section :=
  flat_map
    (fun d => if truthy (strip d)
              then parse_section clean_text (snd (day_header_content d))
              else [])
    (re_split_day plan).

(** The rule of [add_separator]: the table with one empty cell. *)
Definition is_separator (f : flowable) : bool :=
  match f with
  | Table [[CellStr []]] _ _ _ => true
  | _ => false
  end.

Definition has_text (f : flowable) : Prop :=
  match f with
  | Paragraph t _ => t <> []
  | _ => True
  end.

Definition ends_with_separator (st : story) : Prop :=
  exists before,
    st = before ++ [separator_rule 450 default_separator_color; Spacer 1 10].

(** ** Calendar dates *)

Definition DAYS_IN_MONTH : list Z :=
  [-1; 31; 28; 31; 30; 31; 30; 31; 31; 30; 31; 30; 31]%Z.

Definition days_in_month (y m : Z) : Z :=
  if (m =? 2)%Z && is_leap y then 29%Z
  else nth (Z.to_nat m) DAYS_IN_MONTH 0%Z.

(** The dates that [datetime.date] accepts: year 1 to 9999, month 1 to 12,
    day 1 to the length of the month. *)
Definition valid_date (d : date) : bool :=
  (1 <=? year d)%Z && (year d <=? 9999)%Z
  && (1 <=? month d)%Z && (month d <=? 12)%Z
  && (1 <=? day d)%Z && (day d <=? days_in_month (year d) (month d))%Z.

(** The order of dates: by year, then month, then day. *)
Definition date_compare (a b : date) : comparison :=
  match (year a ?= year b)%Z with
  | Eq => match (month a ?= month b)%Z with
          | Eq => (day a ?= day b)%Z
          | c => c
          end
  | c => c
  end.

(** ** [create_custom_styles] *)

(** A keyword argument of [ParagraphStyle]: a number, a font or alignment
    name, a colour, a flag, the four sides of a padding. *)
Inductive attr_value :=
| VInt (n : Z)
| VName (name : string)
| VColor (color : string)
| VBool (b : bool)
| VQuad (top right bottom left : Z).

(** [ParagraphStyle(name=..., **kw)]: the name and the keyword arguments
    as written. *)
Record paragraph_style := {
  ps_name : string;
  ps_attrs : list (string * attr_value)
}.

(** The style sheet of the layout library: the styles by name and by
    alias. *)
Record stylesheet := {
  byName : list (string * paragraph_style);
  byAlias : list (string * paragraph_style)
}.

Fixpoint assoc (V : Type) (k : string) (m : list (string * V)) : option V :=
  match m with
  | [] => None
  | (k', v) :: m' => if String.eqb k k' then Some v else assoc k m'
  end.

(** [styles[key]]: the alias first, then the name; [None] for the
    [KeyError] of a key that is neither. *)
Definition sheet_get (sh : stylesheet) (key : string)
    : option paragraph_style :=
  match assoc key (byAlias sh) with
  | Some s => Some s
  | None => assoc key (byName sh)
  end.

(** [styles.add(style)], without alias: [None] for the [KeyError] raised
    when the name is already a name or an alias of the sheet. *)
Definition sheet_add (sh : stylesheet) (s : paragraph_style)
    : option stylesheet :=
  match assoc (ps_name s) (byName sh), assoc (ps_name s) (byAlias sh) with
  | None, None =>
      Some {| byName := (ps_name s, s) :: byName sh;
              byAlias := byAlias sh |}
  | _, _ => None
  end.

(** The key under which each style is registered and looked up. *)
Definition style_key (s : style_name) : string :=
  match s with
  | CustomTitle => "CustomTitle"
  | CustomSubtitle => "CustomSubtitle"
  | DayHeader => "DayHeader"
  | SectionHeader => "SectionHeader"
  | SubsectionHeader => "SubsectionHeader"
  | BulletPoint => "BulletPoint"
  | InfoBox => "InfoBox"
  | Footer => "Footer"
  end.

(** The colour palette of [create_custom_styles]. *)
Definition primary_color : string := "#1a237e".
Definition secondary_color : string := "#0d47a1".
Definition accent_color : string := "#2196f3".
Definition text_color : string := "#212121".
Definition subtext_color : string := "#757575".

(** The eight [ParagraphStyle] objects, with their arguments. *)
Definition custom_style (s : style_name) : paragraph_style :=
  {| ps_name := style_key s;
     ps_attrs :=
       match s with
       | CustomTitle =>
           [ ("fontName", VName "ArialUnicode"); ("fontSize", VInt 28);
             ("spaceAfter", VInt 30); ("textColor", VColor primary_color);
             ("alignment", VName "TA_CENTER"); ("leading", VInt 36);
             ("borderPadding", VQuad 10 10 10 10);
             ("borderColor", VColor primary_color); ("borderWidth", VInt 2);
             ("backColor", VColor "#f5f5f5") ]
       | CustomSubtitle =>
           [ ("fontName", VName "ArialUnicode"); ("fontSize", VInt 20);
             ("spaceAfter", VInt 25); ("textColor", VColor secondary_color);
             ("alignment", VName "TA_CENTER"); ("leading", VInt 26) ]
       | DayHeader =>
           [ ("fontName", VName "ArialUnicode"); ("fontSize", VInt 18);
             ("spaceBefore", VInt 20); ("spaceAfter", VInt 15);
             ("textColor", VColor "white"); ("leading", VInt 24);
             ("alignment", VName "TA_LEFT");
             ("borderPadding", VQuad 8 12 8 12);
             ("backColor", VColor secondary_color) ]
       | SectionHeader =>
           [ ("fontName", VName "ArialUnicode"); ("fontSize", VInt 16);
             ("spaceBefore", VInt 15); ("spaceAfter", VInt 10);
             ("textColor", VColor accent_color); ("leading", VInt 22);
             ("bold", VBool true); ("borderPadding", VQuad 3 0 3 10);
             ("leftIndent", VInt 5) ]
       | SubsectionHeader =>
           [ ("fontName", VName "ArialUnicode"); ("fontSize", VInt 14);
             ("spaceBefore", VInt 12); ("spaceAfter", VInt 8);
             ("textColor", VColor subtext_color); ("leading", VInt 20);
             ("leftIndent", VInt 15); ("bold", VBool true) ]
       | BulletPoint =>
           [ ("fontName", VName "ArialUnicode"); ("fontSize", VInt 12);
             ("leftIndent", VInt 30); ("firstLineIndent", VInt 15);
             ("spaceBefore", VInt 3); ("spaceAfter", VInt 3);
             ("leading", VInt 18); ("textColor", VColor text_color);
             ("bulletIndent", VInt 15); ("alignment", VName "TA_LEFT") ]
       | InfoBox =>
           [ ("fontName", VName "ArialUnicode"); ("fontSize", VInt 12);
             ("leftIndent", VInt 20); ("rightIndent", VInt 20);
             ("spaceBefore", VInt 10); ("spaceAfter", VInt 10);
             ("leading", VInt 16); ("textColor", VColor text_color);
             ("borderPadding", VQuad 10 10 10 10);
             ("borderColor", VColor accent_color);
             ("backColor", VColor "#f3f9ff") ]
       | Footer =>
           [ ("fontName", VName "ArialUnicode"); ("fontSize", VInt 8);
             ("textColor", VColor subtext_color);
             ("alignment", VName "TA_CENTER") ]
       end |}.

(** The styles in the order in which they are added. *)
Definition all_styles : list style_name :=
  [ CustomTitle; CustomSubtitle; DayHeader; SectionHeader; SubsectionHeader;
    BulletPoint; InfoBox; Footer ].

Definition add_next (acc : option stylesheet) (s : paragraph_style)
    : option stylesheet :=
  match acc with
  | Some sh => sheet_add sh s
  | None => None
  end.

(** [create_custom_styles], over the sheet that [getSampleStyleSheet()]
    returns, which is the library's: the eight calls of [styles.add] in
    turn, the first [KeyError] ending the run. *)
Definition create_custom_styles (sample : stylesheet) : option stylesheet :=
  fold_left add_next (map custom_style all_styles) (Some sample).

(** The entries that a list of styles leaves in [byName]. *)
Definition registered (l : list paragraph_style)
    : list (string * paragraph_style) :=
  rev (map (fun s => (ps_name s, s)) l).

(** * Properties *)

(** A [Forall] over a closed list, each element settled by evaluation. *)
Ltac forall_by_evaluation :=
  repeat (apply Forall_cons; [try split; vm_compute; reflexivity|]);
  apply Forall_nil.

(** ** The marker pattern *)

Lemma after_literal_app (l s : str) : after_literal l (l ++ s) = Some s.
Proof.
  induction l as [|a l IH]; simpl; [reflexivity|].
  now rewrite N.eqb_refl.
Qed.

Lemma after_literal_inv (l s rest : str) :
  after_literal l s = Some rest -> s = l ++ rest.
Proof.
  revert s; induction l as [|a l IH]; intros s H; simpl in *.
  - now inversion H.
  - destruct s as [|c s]; [discriminate|].
    destruct (N.eqb_spec a c) as [->|]; [|discriminate].
    now rewrite (IH _ H).
Qed.

Lemma digits_colon_spec (s : str) :
  digits_colon s = true <->
  exists ds rest, s = ds ++ COLON :: rest /\ forallb isdecimal ds = true.
Proof.
  induction s as [|c s IH]; simpl.
  - split; [discriminate|].
    intros (ds & rest & H & _). now destruct ds.
  - rewrite orb_true_iff, andb_true_iff, IH. split.
    + intros [Hc | [Hd (ds & rest & -> & Hds)]].
      * apply N.eqb_eq in Hc. subst c. now exists [], s.
      * exists (c :: ds), rest. simpl. now rewrite Hd, Hds.
    + intros (ds & rest & H & Hds). destruct ds as [|d ds]; simpl in *.
      * inversion H. left. apply N.eqb_refl.
      * inversion H; subst. apply andb_true_iff in Hds as [Hd Hds].
        right. split; [assumption|]. now exists ds, rest.
Qed.

Lemma digits1_colon_spec (s : str) :
  digits1_colon s = true <->
  exists ds rest,
    s = ds ++ COLON :: rest /\ ds <> [] /\ forallb isdecimal ds = true.
Proof.
  destruct s as [|c s]; simpl.
  - split; [discriminate|]. intros (ds & rest & H & _). now destruct ds.
  - rewrite andb_true_iff, digits_colon_spec. split.
    + intros (Hc & ds & rest & -> & Hds).
      exists (c :: ds), rest. simpl. rewrite Hc, Hds. now repeat split.
    + intros (ds & rest & H & Hne & Hds).
      destruct ds as [|d ds]; [contradiction|].
      simpl in *. inversion H; subst.
      apply andb_true_iff in Hds as [Hd Hds].
      split; [assumption|]. now exists ds, rest.
Qed.

(** The matcher reads the pattern: one of the two spellings of the word, a
    space, one decimal digit or more, a colon. *)
Lemma match_day_spec (s : str) :
  match_day s = true <->
  exists word ds rest,
    (word = lit "Day " \/ word = lit "DAY ") /\
    ds <> [] /\ forallb isdecimal ds = true /\
    s = word ++ ds ++ COLON :: rest.
Proof.
  unfold match_day, match_alt. rewrite orb_true_iff. split.
  - intros [H | H].
    + destruct (after_literal (lit "Day ") s) as [r|] eqn:E; [|discriminate].
      apply after_literal_inv in E. apply digits1_colon_spec in H.
      destruct H as (ds & rest & -> & Hne & Hds).
      exists (lit "Day "), ds, rest. auto.
    + destruct (after_literal (lit "DAY ") s) as [r|] eqn:E; [|discriminate].
      apply after_literal_inv in E. apply digits1_colon_spec in H.
      destruct H as (ds & rest & -> & Hne & Hds).
      exists (lit "DAY "), ds, rest. auto.
  - intros (word & ds & rest & [-> | ->] & Hne & Hds & ->);
      [left | right]; rewrite after_literal_app;
      apply digits1_colon_spec; now exists ds, rest.
Qed.

Lemma match_day_nil : match_day [] = false.
Proof. reflexivity. Qed.

(** A marker starts with the letter D. *)
Lemma match_day_head (c : char) (s : str) :
  match_day (c :: s) = true -> c = 68%N.
Proof.
  intros H. apply match_day_spec in H.
  destruct H as (word & ds & rest & [-> | ->] & _ & _ & H);
    now inversion H.
Qed.

Lemma isdecimal_not_D (c : char) : isdecimal c = true -> c <> 68%N.
Proof. intros H ->. vm_compute in H. discriminate. Qed.

(** A text that starts with a marker still does when it is extended. *)
Lemma match_day_app (s t : str) :
  match_day s = true -> match_day (s ++ t) = true.
Proof.
  intros H. apply match_day_spec in H.
  destruct H as (word & ds & rest & Hw & Hne & Hds & ->).
  apply match_day_spec. exists word, ds, (rest ++ t).
  repeat split; try assumption.
  now rewrite <- !app_assoc, <- app_comm_cons.
Qed.

(** ** The lookahead split *)

Lemma split_from_cons (c : char) (s : str) :
  split_from (c :: s) =
  if match_day s
  then ([c], fst (split_from s) :: snd (split_from s))
  else (c :: fst (split_from s), snd (split_from s)).
Proof. simpl. now destruct (split_from s). Qed.

Lemma re_split_day_unfold (s : str) :
  re_split_day s =
  if match_day s
  then [] :: fst (split_from s) :: snd (split_from s)
  else fst (split_from s) :: snd (split_from s).
Proof. unfold re_split_day. now destruct (split_from s). Qed.

(** The pieces put together give the text back. *)
Lemma split_from_concat (s : str) :
  fst (split_from s) ++ concat (snd (split_from s)) = s.
Proof.
  induction s as [|c s IH]; [reflexivity|].
  rewrite split_from_cons.
  destruct (match_day s); simpl; now rewrite IH.
Qed.

Lemma re_split_day_concat (s : str) : concat (re_split_day s) = s.
Proof.
  rewrite re_split_day_unfold.
  destruct (match_day s); simpl; apply split_from_concat.
Qed.

Lemma split_from_offsets (s : str) (k : nat) :
  offsets (k + length (fst (split_from s))) (snd (split_from s)) =
  marks_from (S k) (tl s).
Proof.
  revert k; induction s as [|c s IH]; intros k; [reflexivity|].
  rewrite split_from_cons.
  destruct (match_day s) eqn:E; cbn [fst snd tl length].
  - destruct s as [|c' s']; [discriminate|].
    cbn [offsets marks_from]. rewrite E. cbn [app].
    replace (k + 1) with (S k) by lia.
    now rewrite (IH (S k)).
  - replace (k + S (length (fst (split_from s))))
      with (S k + length (fst (split_from s))) by lia.
    rewrite (IH (S k)).
    destruct s as [|c' s']; [reflexivity|].
    cbn [marks_from tl]. now rewrite E.
Qed.

Lemma filter_skipn_shift (c : char) (s : str) (l : list nat) :
  filter (fun p => match_day (skipn p (c :: s))) (map S l) =
  map S (filter (fun p => match_day (skipn p s)) l).
Proof.
  induction l as [|p l IHl]; [reflexivity|].
  cbn [map filter skipn]. destruct (match_day (skipn p s)); cbn [map];
    now rewrite IHl.
Qed.

Lemma marks_from_filter (s : str) (k : nat) :
  marks_from k s =
  map (fun p => k + p)
    (filter (fun p => match_day (skipn p s)) (seq 0 (length s))).
Proof.
  revert k; induction s as [|c s IH]; intros k; [reflexivity|].
  cbn [marks_from length seq filter skipn].
  rewrite <- seq_shift, IH, filter_skipn_shift.
  destruct (match_day (c :: s)); cbn [app map];
    rewrite map_map, ?Nat.add_0_r; [f_equal|];
    apply map_ext; intros; lia.
Qed.

Lemma cut_points_marks (s : str) :
  cut_points (re_split_day s) = marks_from 0 s.
Proof.
  unfold cut_points. rewrite re_split_day_unfold.
  destruct s as [|c s]; [reflexivity|].
  pose proof (split_from_offsets (c :: s) 0) as H.
  cbn [Nat.add tl] in H.
  destruct (match_day (c :: s)) eqn:E; cbn [offsets tl length marks_from];
    rewrite E; cbn [app Nat.add]; now rewrite H.
Qed.

Lemma no_match_head (c : char) (s : str) :
  c <> 68%N -> match_day (c :: s) = false.
Proof.
  intros Hc. destruct (match_day (c :: s)) eqn:E; [|reflexivity].
  now apply match_day_head in E.
Qed.

Lemma piece_cons_no_match (c : char) (s : str) :
  match_day s = false ->
  fst (split_from (c :: s)) = c :: fst (split_from s).
Proof. intros H. now rewrite split_from_cons, H. Qed.

Lemma piece_digits (ds rest : str) :
  forallb isdecimal ds = true ->
  exists x, fst (split_from (ds ++ COLON :: rest)) = ds ++ COLON :: x.
Proof.
  induction ds as [|d ds IH]; intros Hds.
  - cbn [app]. rewrite split_from_cons.
    destruct (match_day rest); eexists; reflexivity.
  - cbn [forallb] in Hds. apply andb_true_iff in Hds as [Hd Hds].
    destruct (IH Hds) as [x Hx].
    exists x. cbn [app]. rewrite piece_cons_no_match, Hx; [reflexivity|].
    destruct ds as [|d' ds'].
    + now apply no_match_head.
    + apply no_match_head. cbn [forallb] in Hds.
      apply andb_true_iff in Hds as [Hd' _]. now apply isdecimal_not_D.
Qed.

(** No marker starts inside another one, so the piece that starts with a
    marker holds the whole of it. *)
Lemma piece_keeps_marker (s : str) :
  match_day s = true -> match_day (fst (split_from s)) = true.
Proof.
  intros H. apply match_day_spec in H.
  destruct H as (word & ds & rest & Hw & Hne & Hds & ->).
  destruct (piece_digits ds rest Hds) as [x Hx].
  apply match_day_spec. exists word, ds, x.
  repeat split; try assumption.
  destruct ds as [|d ds]; [contradiction|].
  assert (Hd : match_day ((d :: ds) ++ COLON :: rest) = false).
  { apply no_match_head. cbn [forallb] in Hds.
    apply andb_true_iff in Hds as [Hd _]. now apply isdecimal_not_D. }
  cbn [app] in Hx, Hd.
  destruct Hw as [-> | ->]; cbn [lit map list_ascii_of_string app];
    repeat (rewrite piece_cons_no_match;
            [| first [assumption
                     | apply no_match_head; vm_compute; discriminate]]);
    now rewrite Hx.
Qed.

(** Every piece but the first starts with a marker. *)
Lemma later_pieces_match (s : str) :
  Forall (fun p => match_day p = true) (snd (split_from s)).
Proof.
  induction s as [|c s IH]; [constructor|].
  rewrite split_from_cons.
  destruct (match_day s) eqn:E; cbn [snd]; [|assumption].
  constructor; [now apply piece_keeps_marker | assumption].
Qed.

Lemma tl_re_split_day_match (s : str) :
  Forall (fun p => match_day p = true) (tl (re_split_day s)).
Proof.
  rewrite re_split_day_unfold.
  destruct (match_day s) eqn:E; cbn [tl]; [|apply later_pieces_match].
  constructor; [now apply piece_keeps_marker | apply later_pieces_match].
Qed.

(** The first piece never starts with a marker. *)
Lemma hd_re_split_day_no_match (s : str) :
  match_day (hd [] (re_split_day s)) = false.
Proof.
  rewrite re_split_day_unfold.
  destruct (match_day s) eqn:E; cbn [hd]; [reflexivity|].
  destruct (match_day (fst (split_from s))) eqn:E'; [|reflexivity].
  apply (match_day_app _ (concat (snd (split_from s)))) in E'.
  rewrite split_from_concat in E'. congruence.
Qed.

Lemma re_split_day_cons (s : str) :
  re_split_day s = hd [] (re_split_day s) :: tl (re_split_day s).
Proof. rewrite re_split_day_unfold. now destruct (match_day s). Qed.

Lemma no_marks_split_from (s : str) (k : nat) :
  marks_from k s = [] -> split_from s = (s, []) /\ match_day s = false.
Proof.
  revert k; induction s as [|c s IH]; intros k H; [now split|].
  cbn [marks_from] in H. apply app_eq_nil in H as [H1 H2].
  destruct (match_day (c :: s)) eqn:E; [discriminate|].
  destruct (IH _ H2) as [Hs Hm].
  split; [|reflexivity].
  now rewrite split_from_cons, Hm, Hs.
Qed.

Lemma marker_positions_marks (s : str) : marker_positions s = marks_from 0 s.
Proof.
  rewrite marks_from_filter. unfold marker_positions.
  now rewrite map_id.
Qed.

(** ** The story as a concatenation *)

Lemma fold_left_appending (A : Type) (f : story -> A -> story) :
  (forall st x, f st x = st ++ f [] x) ->
  forall l st, fold_left f l st = st ++ flat_map (f []) l.
Proof.
  intros Hf l; induction l as [|x l IH]; intros st; cbn [fold_left flat_map].
  - now rewrite app_nil_r.
  - now rewrite IH, Hf, app_assoc.
Qed.

Lemma add_separator_app (st : story) (w : Z) (color : string) :
  add_separator st w color = st ++ add_separator [] w color.
Proof. unfold add_separator. now rewrite <- !app_assoc. Qed.

Lemma add_section_app (st : story) (s : section) :
  add_section st s = st ++ add_section [] s.
Proof.
  unfold add_section.
  rewrite !(fold_left_appending
              (fun st point =>
                 st ++ [Paragraph (BULLET :: SPACE :: point) BulletPoint]))
    by reflexivity.
  destruct (truthy (header s)), (truthy (info s));
    cbn [app]; now rewrite <- ?app_assoc.
Qed.

Lemma add_day_app (clean_text : str -> str) (st : story) (d : str) :
  add_day clean_text st d = st ++ add_day clean_text [] d.
Proof.
  unfold add_day. destruct (truthy (strip d)); [|now rewrite app_nil_r].
  destruct (day_header_content d) as [h c].
  rewrite add_separator_app, (add_separator_app (fold_left _ _ _)).
  rewrite !(fold_left_appending add_section add_section_app).
  cbn [app]. now rewrite <- !app_assoc.
Qed.

Lemma generate_trip_pdf_app (clean_text : str -> str)
    (plan sl dest : str) (sd ed : date) :
  generate_trip_pdf clean_text plan sl dest sd ed =
  front_matter sl dest sd ed
  ++ flat_map (add_day clean_text []) (re_split_day plan).
Proof.
  unfold generate_trip_pdf.
  apply fold_left_appending. apply add_day_app.
Qed.

(** ** Day headers *)

Lemma day_headers_app (a b : story) :
  day_headers (a ++ b) = day_headers a ++ day_headers b.
Proof.
  induction a as [|f a IH]; [reflexivity|].
  destruct f as [t sty| |]; cbn [app day_headers]; try assumption.
  destruct sty; cbn [app]; now rewrite ?IH.
Qed.

Lemma day_headers_flat_map (A : Type) (f : A -> story) (l : list A) :
  day_headers (flat_map f l) = flat_map (fun x => day_headers (f x)) l.
Proof.
  induction l as [|x l IH]; [reflexivity|].
  cbn [flat_map]. now rewrite day_headers_app, IH.
Qed.

Lemma day_headers_add_section (s : section) :
  day_headers (add_section [] s) = [].
Proof.
  unfold add_section.
  rewrite (fold_left_appending
             (fun st point =>
                st ++ [Paragraph (BULLET :: SPACE :: point) BulletPoint]))
    by reflexivity.
  rewrite !day_headers_app, day_headers_flat_map.
  assert (H : flat_map
                (fun x => day_headers
                   ([] ++ [Paragraph (BULLET :: SPACE :: x) BulletPoint]))
                (points s) = []).
  { induction (points s) as [|p ps IH]; [reflexivity|]. exact IH. }
  rewrite H.
  now destruct (truthy (header s)), (truthy (info s)).
Qed.

Lemma day_headers_add_day (clean_text : str -> str) (d : str) :
  day_headers (add_day clean_text [] d) =
  if truthy (strip d) then [fst (day_header_content d)] else [].
Proof.
  unfold add_day. destruct (truthy (strip d)); [|reflexivity].
  destruct (day_header_content d) as [h c]. cbn [fst].
  rewrite add_separator_app,
    (fold_left_appending add_section add_section_app).
  rewrite !day_headers_app, day_headers_flat_map.
  assert (H : forall l : list section,
             flat_map (fun x => day_headers (add_section [] x)) l = []).
  { induction l as [|x l IH]; [reflexivity|].
    cbn [flat_map]. now rewrite day_headers_add_section, IH. }
  now rewrite H.
Qed.

Lemma day_headers_generate (clean_text : str -> str)
    (plan sl dest : str) (sd ed : date) :
  day_headers (generate_trip_pdf clean_text plan sl dest sd ed) =
  flat_map
    (fun d => if truthy (strip d) then [fst (day_header_content d)] else [])
    (re_split_day plan).
Proof.
  rewrite generate_trip_pdf_app, day_headers_app, day_headers_flat_map.
  cbn [front_matter day_headers app].
  apply flat_map_ext. intros d. apply day_headers_add_day.
Qed.

Lemma lstrip_by_snoc (p : char -> bool) (l : str) (x : char) :
  p x = false -> lstrip_by p (l ++ [x]) <> [].
Proof.
  intros Hx. induction l as [|c l IH]; cbn [app lstrip_by].
  - now rewrite Hx.
  - destruct (p c); [assumption | discriminate].
Qed.

(** A chunk that starts with a visible character is not blank. *)
Lemma strip_visible (c : char) (s : str) :
  isspace c = false -> truthy (strip (c :: s)) = true.
Proof.
  intros Hc. unfold strip. cbn [lstrip_by]. rewrite Hc.
  unfold rstrip_by. cbn [rev].
  pose proof (lstrip_by_snoc isspace (rev s) c Hc) as Hne.
  destruct (lstrip_by isspace (rev s ++ [c])) as [|x l]; [contradiction|].
  cbn [rev]. now destruct (rev l).
Qed.

Lemma first_line_cons (c : char) (s : str) :
  c <> NL -> first_line (c :: s) = c :: first_line s.
Proof.
  intros Hc. unfold first_line. cbn [split].
  destruct (N.eqb_spec c NL) as [|_]; [contradiction|].
  now destruct (split NL s).
Qed.

(** The headers of the chunks that start with a marker. *)
Lemma day_headers_marker_chunks (cs : list str) :
  Forall (fun c => match_day c = true) cs ->
  flat_map
    (fun d => if truthy (strip d) then [fst (day_header_content d)] else [])
    cs
  = map first_line cs.
Proof.
  induction 1 as [|c cs Hc _ IH]; [reflexivity|].
  cbn [flat_map map]. rewrite IH.
  unfold day_header_content. rewrite Hc. cbn [fst].
  destruct c as [|x c]; [discriminate|].
  apply match_day_head in Hc. subst x.
  now rewrite strip_visible.
Qed.

Lemma day_headers_chunks (clean_text : str -> str)
    (plan sl dest : str) (sd ed : date) :
  day_headers (generate_trip_pdf clean_text plan sl dest sd ed) =
  (if truthy (strip (hd [] (re_split_day plan)))
   then [TRIP_OVERVIEW] else [])
  ++ map first_line (tl (re_split_day plan)).
Proof.
  rewrite day_headers_generate, (re_split_day_cons plan) at 1.
  cbn [flat_map].
  rewrite (day_headers_marker_chunks (tl_re_split_day_match plan)).
  unfold day_header_content at 1.
  now rewrite hd_re_split_day_no_match.
Qed.

Lemma length_offsets (pieces : list str) (k : nat) :
  length (offsets k pieces) = length pieces.
Proof.
  revert k; induction pieces as [|p ps IH]; intros k; [reflexivity|].
  cbn [offsets length]. now rewrite IH.
Qed.

Lemma length_tl_re_split_day (s : str) :
  length (tl (re_split_day s)) = length (marker_positions s).
Proof.
  rewrite marker_positions_marks, <- cut_points_marks.
  unfold cut_points.
  pose proof (length_offsets (re_split_day s) 0) as H.
  rewrite (re_split_day_cons s) in H at 1 2.
  rewrite (re_split_day_cons s) at 2.
  cbn [offsets tl length] in *. lia.
Qed.

(** ** Segmentation into day blocks *)

(** C1, as the code has it.  A text in which a day marker ([Day <digits>:]
    or [DAY <digits>:]) occurs N times, at any position, gives exactly N
    day blocks with a marker header, one per chunk of the split after the
    first; each of these headers is the first line of its chunk, which
    starts with the marker; and one day block labelled "Trip Overview"
    comes before them exactly when the text before the first marker is not
    blank. *)
Theorem day_blocks_per_marker (clean_text : str -> str)
    (plan sl dest : str) (sd ed : date) :
  let chunks := re_split_day plan in
  day_headers (generate_trip_pdf clean_text plan sl dest sd ed) =
    (if truthy (strip (hd [] chunks)) then [TRIP_OVERVIEW] else [])
    ++ map first_line (tl chunks)
  /\ length (tl chunks) = length (marker_positions plan)
  /\ Forall (fun chunk => match_day chunk = true) (tl chunks).
Proof.
  cbv zeta. split; [apply day_headers_chunks|].
  split; [apply length_tl_re_split_day | apply tl_re_split_day_match].
Qed.

(** C1 as stated fails: a text with one marker line after an introduction
    gives two day blocks, and a marker in the middle of a line opens a day
    block of its own, so that the header of the block before it is only
    the part of the line up to that marker. *)
Lemma one_marker_line_two_day_blocks :
  let plan := text ["Intro"; "Day 1:"; "- x"] in
  let plan' := lit "Day 1: a Day 2: b" in
  let blocks p :=
    day_headers
      (generate_trip_pdf clean_text_spec p (lit "A") (lit "B") june_1 june_1) in
  (marker_lines plan = [lit "Day 1:"] /\
   blocks plan = [TRIP_OVERVIEW; lit "Day 1:"] /\
   length (blocks plan) <> length (marker_lines plan)) /\
  (marker_lines plan' = [plan'] /\
   blocks plan' = [lit "Day 1: a "; lit "Day 2: b"] /\
   ~ In plan' (blocks plan')).
Proof.
  vm_compute. repeat split; try discriminate.
  intros [H | [H | []]]; discriminate.
Qed.

(** C3, as the code has it.  The text is cut exactly at the offsets where
    [Day <digits>:] or [DAY <digits>:] starts, in these two spellings only
    and wherever in a line that is; nothing is lost by the cut, and every
    chunk after the first starts with the marker that opened it. *)
Theorem day_chunk_boundaries (plan : str) :
  cut_points (re_split_day plan) = marker_positions plan
  /\ concat (re_split_day plan) = plan
  /\ Forall (fun chunk => match_day chunk = true) (tl (re_split_day plan)).
Proof.
  split; [now rewrite cut_points_marks, marker_positions_marks|].
  split; [apply re_split_day_concat | apply tl_re_split_day_match].
Qed.

(** C3 as stated fails both ways: a line that begins with [day 1:] in
    lower case opens no chunk, and [Day 2:] in the middle of a line does. *)
Lemma boundary_not_at_line_start_nocase :
  let s1 := text ["intro"; "day 1: walk"] in
  let s2 := lit "See Day 2: plan" in
  (line_start_marker s1 6 = true /\ ~ In 6 (cut_points (re_split_day s1)))
  /\ (line_start_marker s2 4 = false /\ In 4 (cut_points (re_split_day s2))).
Proof.
  vm_compute. repeat split; auto.
Qed.

(** C4, as the code has it.  A text without a day marker gives exactly one
    day block, labelled "Trip Overview", when it has a visible character,
    and no day block when it is empty or blank. *)
Theorem no_marker_one_overview_block (clean_text : str -> str)
    (plan sl dest : str) (sd ed : date) :
  marker_positions plan = [] ->
  day_headers (generate_trip_pdf clean_text plan sl dest sd ed) =
  if truthy (strip plan) then [TRIP_OVERVIEW] else [].
Proof.
  intros H. rewrite marker_positions_marks in H.
  apply no_marks_split_from in H as [Hs Hm].
  rewrite day_headers_generate. unfold re_split_day.
  rewrite Hs, Hm. cbn [flat_map]. unfold day_header_content.
  rewrite Hm, app_nil_r. reflexivity.
Qed.

Lemma no_marker_one_overview_block_witness :
  marker_positions (lit "Pack light") = [] /\
  day_headers
    (generate_trip_pdf clean_text_spec (lit "Pack light") (lit "A") (lit "B")
       june_1 june_1)
  = if truthy (strip (lit "Pack light")) then [TRIP_OVERVIEW] else [].
Proof.
  split; [reflexivity|].
  apply (no_marker_one_overview_block clean_text_spec). reflexivity.
Defined.

(** C4 as stated fails on the empty text: it has no marker and gives no day
    block at all. *)
Lemma empty_plan_no_day_block :
  marker_positions [] = [] /\
  day_headers
    (generate_trip_pdf clean_text_spec [] (lit "A") (lit "B") june_1 june_1)
  = [].
Proof. split; reflexivity. Qed.

(** C10.  No day block after the first is labelled "Trip Overview": every
    chunk of the split but the first starts with a day marker, and its
    header, which starts with the marker too, is not the fallback label. *)
Theorem overview_block_only_first (clean_text : str -> str)
    (plan sl dest : str) (sd ed : date) :
  ~ In TRIP_OVERVIEW
      (tl (day_headers (generate_trip_pdf clean_text plan sl dest sd ed)))
  /\ Forall (fun chunk => match_day chunk = true) (tl (re_split_day plan)).
Proof.
  split; [|apply tl_re_split_day_match].
  rewrite day_headers_chunks.
  assert (H : ~ In TRIP_OVERVIEW (map first_line (tl (re_split_day plan)))).
  { intros Hin. apply in_map_iff in Hin as (c & Hc & Hin).
    pose proof (tl_re_split_day_match plan) as Hall.
    rewrite Forall_forall in Hall. specialize (Hall c Hin).
    destruct c as [|x c]; [discriminate|].
    apply match_day_head in Hall. subst x.
    rewrite first_line_cons in Hc by discriminate. discriminate. }
  destruct (truthy (strip (hd [] (re_split_day plan)))); cbn [app tl].
  - exact H.
  - intros Hin. apply H.
    destruct (map first_line (tl (re_split_day plan))); [assumption|].
    now right.
Qed.

(** ** Front matter *)

(** C7.  Whatever the plan text, the locations and the dates, the story
    starts with the title paragraph, the subtitle paragraph and the summary
    table (with the spacer that the table step puts after it), then the
    separator (its rule and spacer); the content of the days comes after. *)
Theorem story_starts_with_front_matter (clean_text : str -> str)
    (plan sl dest : str) (sd ed : date) :
  generate_trip_pdf clean_text plan sl dest sd ed =
  [ Paragraph (lit "Travel Itinerary" ++ [NL] ++ sl ++ lit " to " ++ dest)
      CustomTitle;
    Paragraph (lit "Journey Dates: " ++ date_str sd ++ lit " - "
               ++ date_str ed) CustomSubtitle;
    create_overview_table
      {| td_start_location := sl; td_destination := dest;
         td_start_date := sd; td_end_date := ed;
         td_duration := (days_between ed sd + 1)%Z |};
    Spacer 1 20;
    separator_rule 450 "#e0e0e0";
    Spacer 1 10 ]
  ++ flat_map (add_day clean_text []) (re_split_day plan).
Proof. now rewrite generate_trip_pdf_app. Qed.

(** C8.  The Duration row of the summary table shows the inclusive day
    count, the difference of the two date ordinals plus one, followed by
    " days": 3 for 2024-01-01 to 2024-01-03 and 1 for equal dates. *)
Theorem duration_shown (clean_text : str -> str)
    (plan sl dest : str) (sd ed : date) :
  shown_value (lit "Duration")
    (generate_trip_pdf clean_text plan sl dest sd ed)
  = Some (CellStr (int_str (toordinal ed - toordinal sd + 1) ++ lit " days"))
  /\ shown_value (lit "Duration")
       (generate_trip_pdf clean_text plan sl dest jan_1 jan_3)
     = Some (CellStr (lit "3 days"))
  /\ shown_value (lit "Duration")
       (generate_trip_pdf clean_text plan sl dest sd sd)
     = Some (CellStr (lit "1 days")).
Proof.
  assert (H : forall a b,
    shown_value (lit "Duration")
      (generate_trip_pdf clean_text plan sl dest a b)
    = Some (CellStr (int_str (toordinal b - toordinal a + 1) ++ lit " days"))).
  { intros a b. rewrite generate_trip_pdf_app. reflexivity. }
  split; [apply H|]. split; rewrite H.
  - reflexivity.
  - now replace (toordinal sd - toordinal sd + 1)%Z with 1%Z by lia.
Qed.


(** ** The four kinds of line *)

Section Lines.
Variable clean_text : str -> str.

Lemma consume_blank (st : pstate) (raw : str) :
  truthy (strip raw) = false ->
  consume clean_text st raw =
  if truthy (info_block st)
  then {| sections := sections st;
          current_section :=
            set_info (current_section st) (join [SPACE] (info_block st));
          info_block := [] |}
  else st.
Proof. intros H. unfold consume. now rewrite H. Qed.

Lemma consume_header (st : pstate) (raw : str) :
  is_header_line (strip raw) = true ->
  consume clean_text st raw =
  {| sections := flush st;
     current_section := {| header := strip raw; points := []; info := [] |};
     info_block := [] |}.
Proof.
  intros H. unfold consume. rewrite H.
  destruct (strip raw); [discriminate | reflexivity].
Qed.

Lemma consume_bullet (st : pstate) (raw : str) :
  is_header_line (strip raw) = false ->
  startswith_any bullet_markers (strip raw) = true ->
  consume clean_text st raw =
  if truthy (bullet_point clean_text (strip raw))
  then {| sections := sections st;
          current_section :=
            append_point (current_section st)
              (bullet_point clean_text (strip raw));
          info_block := info_block st |}
  else st.
Proof.
  intros H1 H2. unfold consume. rewrite H1, H2.
  destruct (strip raw); [discriminate | reflexivity].
Qed.

Lemma consume_info (st : pstate) (raw : str) :
  truthy (strip raw) = true ->
  is_header_line (strip raw) = false ->
  startswith_any bullet_markers (strip raw) = false ->
  consume clean_text st raw =
  {| sections := sections st;
     current_section := current_section st;
     info_block := info_block st ++ [strip raw] |}.
Proof. intros H0 H1 H2. unfold consume. now rewrite H0, H1, H2. Qed.

Lemma info_blocks_cons (body : list str) :
  info_blocks body = hd [] (info_blocks body) :: tl (info_blocks body).
Proof.
  induction body as [|l body IH]; [reflexivity|].
  cbn [info_blocks].
  destruct (negb (truthy l)); [reflexivity|].
  destruct (startswith_any bullet_markers l); [assumption|].
  rewrite IH. reflexivity.
Qed.

Lemma prepend_cons (buf : list str) (blocks : list (list str)) :
  prepend buf blocks = hd [] (prepend buf blocks) :: tl (prepend buf blocks).
Proof. now destruct blocks. Qed.

Lemma prepend_app (buf : list str) (l : str) (blocks : list (list str)) :
  prepend buf (prepend [l] blocks) = prepend (buf ++ [l]) blocks.
Proof.
  destruct blocks as [|b bs]; cbn [prepend app].
  - reflexivity.
  - now rewrite <- app_assoc.
Qed.

Lemma pick_cons_nil (i : str) (blocks : list (list str)) :
  pick i ([] :: blocks) = pick i blocks.
Proof. reflexivity. Qed.

Lemma pick_cons (i : str) (b : list str) (blocks : list (list str)) :
  truthy b = true -> pick i (b :: blocks) = pick (join [SPACE] b) blocks.
Proof.
  intros Hb. unfold pick. cbn [filter]. rewrite Hb.
  destruct (filter truthy blocks) as [|x l]; reflexivity.
Qed.

Lemma run_body (body : list str) :
  Forall (fun l => is_header_line (strip l) = false) body ->
  forall st,
    fold_left (consume clean_text) body st =
    {| sections := sections st;
       current_section :=
         {| header := header (current_section st);
            points := points (current_section st)
                      ++ body_points clean_text (map strip body);
            info := pick (info (current_section st))
                      (removelast
                         (prepend (info_block st)
                            (info_blocks (map strip body)))) |};
       info_block :=
         last (prepend (info_block st) (info_blocks (map strip body))) [] |}.
Proof.
  induction 1 as [|raw body Hraw _ IH]; intros st.
  - destruct st as [S [h p i] b]. cbn. now rewrite !app_nil_r.
  - cbn [fold_left map info_blocks]. rewrite IH. clear IH.
    destruct (truthy (strip raw)) eqn:Hblank; cbn [negb].
    + destruct (startswith_any bullet_markers (strip raw)) eqn:Hb.
      * rewrite consume_bullet by assumption.
        unfold body_points. cbn [filter map]. rewrite Hb. cbn [map filter].
        destruct (truthy (bullet_point clean_text (strip raw)));
          cbn [sections current_section info_block append_point header
               points info]; [|reflexivity].
        now rewrite <- app_assoc.
      * rewrite consume_info by assumption.
        cbn [sections current_section info_block].
        unfold body_points. cbn [filter map]. rewrite Hb.
        now rewrite prepend_app.
    + rewrite consume_blank by assumption.
      assert (Hbp : body_points clean_text (strip raw :: map strip body)
                    = body_points clean_text (map strip body)).
      { unfold body_points. cbn [filter].
        destruct (strip raw); [reflexivity | discriminate]. }
      rewrite Hbp.
      destruct (info_blocks (map strip body)) as [|g gs] eqn:E.
      { now rewrite info_blocks_cons in E. }
      destruct (info_block st) as [|x buf] eqn:Hbuf; cbn [truthy].
      * rewrite Hbuf. reflexivity.
      * cbn [sections current_section info_block set_info header points
             info prepend].
        rewrite app_nil_r. cbn [app].
        change (removelast ((x :: buf) :: g :: gs))
          with ((x :: buf) :: removelast (g :: gs)).
        now rewrite pick_cons by reflexivity.
Qed.



Lemma flush_after_sections (done : list section) (st : pstate) :
  flush (after_sections done st) = done ++ flush st.
Proof.
  unfold flush, after_sections. cbn [sections current_section].
  destruct (qualifies (current_section st)); now rewrite ?app_assoc.
Qed.

Lemma consume_after_sections (done : list section) (st : pstate)
    (raw : str) :
  consume clean_text (after_sections done st) raw =
  after_sections done (consume clean_text st raw).
Proof.
  unfold consume. rewrite flush_after_sections.
  cbn [after_sections sections current_section info_block].
  destruct (negb (truthy (strip raw))).
  - now destruct (truthy (info_block st)).
  - destruct (is_header_line (strip raw)); [reflexivity|].
    destruct (startswith_any bullet_markers (strip raw)); [|reflexivity].
    now destruct (truthy (bullet_point clean_text (strip raw))).
Qed.

Lemma fold_after_sections (done : list section) (lines : list str)
    (st : pstate) :
  fold_left (consume clean_text) lines (after_sections done st) =
  after_sections done (fold_left (consume clean_text) lines st).
Proof.
  revert st; induction lines as [|l lines IH]; intros st; [reflexivity|].
  cbn [fold_left]. now rewrite consume_after_sections, IH.
Qed.

Lemma finish_after_sections (done : list section) (st : pstate) :
  finish (after_sections done st) = done ++ finish st.
Proof.
  unfold finish. cbn [after_sections info_block].
  destruct (truthy (info_block st)); [|apply flush_after_sections].
  unfold flush. cbn [sections current_section].
  destruct (qualifies _); now rewrite ?app_assoc.
Qed.

Lemma finish_fold_sections (done : list section) (c : section)
    (buf lines : list str) :
  finish
    (fold_left (consume clean_text) lines
       {| sections := done; current_section := c; info_block := buf |})
  = done
    ++ finish
         (fold_left (consume clean_text) lines
            {| sections := []; current_section := c; info_block := buf |}).
Proof.
  rewrite <- finish_after_sections, <- fold_after_sections.
  unfold after_sections. cbn [sections current_section info_block].
  now rewrite app_nil_r.
Qed.

Lemma pick_last (blocks : list (list str)) :
  blocks <> [] ->
  (if truthy (last blocks [])
   then join [SPACE] (last blocks [])
   else pick [] (removelast blocks))
  = join [SPACE] (last (filter truthy blocks) []).
Proof.
  intros Hne.
  rewrite (app_removelast_last [] Hne) at 4.
  rewrite filter_app. cbn [filter].
  destruct (truthy (last blocks [])).
  - now rewrite last_last.
  - rewrite app_nil_r. unfold pick.
    now destruct (filter truthy (removelast blocks)).
Qed.

Lemma info_blocks_not_nil (body : list str) : info_blocks body <> [].
Proof. now rewrite info_blocks_cons. Qed.

Lemma prepend_nil (blocks : list (list str)) :
  blocks <> [] -> prepend [] blocks = blocks.
Proof. now destruct blocks. Qed.

(** From a section just opened, over its body and what follows it. *)
Lemma section_from_fresh (done : list section) (hh : str)
    (body after : list str) :
  Forall (fun l => is_header_line (strip l) = false) body ->
  after = [] \/
    (pending_block (map strip body) = [] /\
     is_header_line (strip (hd [] after)) = true) ->
  let sec :=
    {| header := hh;
       points := body_points clean_text (map strip body);
       info := join [SPACE] (last_info_block (map strip body)) |} in
  finish
    (fold_left (consume clean_text) (body ++ after)
       {| sections := done;
          current_section := {| header := hh; points := []; info := [] |};
          info_block := [] |})
  = done ++ (if qualifies sec then [sec] else [])
    ++ parse_lines clean_text after.
Proof.
  intros Hbody Hclosed sec.
  rewrite fold_left_app, (run_body Hbody).
  cbn [sections current_section info_block header points info app].
  rewrite prepend_nil by apply info_blocks_not_nil.
  pose proof (pick_last (info_blocks_not_nil (map strip body))) as Hpick.
  fold (last_info_block (map strip body)) in Hpick.
  destruct Hclosed as [-> | [Hpend Hh]].
  - cbn [fold_left]. unfold parse_lines. cbn [fold_left].
    unfold finish at 2. cbn [initial info_block truthy flush qualifies
      current_section header points orb sections].
    rewrite app_nil_r.
    unfold finish. cbn [info_block current_section sections].
    destruct (truthy (last (info_blocks (map strip body)) [])) eqn:E;
      unfold flush, qualifies, set_info; subst sec;
      cbn [sections current_section header points info];
      rewrite Hpick;
      destruct (truthy hh
                || truthy (body_points clean_text (map strip body)));
      now rewrite ?app_nil_r.
  - destruct after as [|h' after']; [discriminate|].
    cbn [hd] in Hh. unfold pending_block in Hpend.
    rewrite Hpend in *. cbn [truthy] in Hpick.
    unfold parse_lines. cbn [fold_left].
    rewrite !consume_header by assumption.
    cbn [initial]. unfold flush at 2.
    cbn [current_section qualifies header points truthy orb sections].
    rewrite finish_fold_sections.
    cbn [sections current_section].
    unfold flush, qualifies.
    cbn [sections current_section header points info].
    rewrite Hpick. fold sec. subst sec. cbn.
    destruct (truthy hh || truthy (body_points clean_text (map strip body)));
      now rewrite <- ?app_assoc, ?app_nil_r.
Qed.



Lemma length_finish (st : pstate) : length (finish st) = length (flush st).
Proof.
  unfold finish. destruct (truthy (info_block st)); [|reflexivity].
  unfold flush, qualifies. cbn [sections current_section set_info header
    points].
  destruct (truthy (header (current_section st))
            || truthy (points (current_section st)));
    now rewrite ?length_app.
Qed.

Lemma concat_prepend (buf : list str) (blocks : list (list str)) :
  concat (prepend buf blocks) = buf ++ concat blocks.
Proof.
  destruct blocks as [|b bs]; cbn [prepend concat].
  - reflexivity.
  - now rewrite app_assoc.
Qed.

(** The blocks hold the info lines, all of them and in order. *)
Lemma concat_info_blocks (body : list str) :
  concat (info_blocks body) = info_lines body.
Proof.
  unfold info_lines.
  induction body as [|l body IH]; [reflexivity|].
  cbn [info_blocks filter].
  destruct (truthy l); cbn [negb andb concat app]; [|assumption].
  destruct (startswith_any bullet_markers l); cbn [negb]; [assumption|].
  now rewrite concat_prepend, IH.
Qed.

Lemma filter_truthy_concat_nil (blocks : list (list str)) :
  concat blocks = [] -> filter truthy blocks = [].
Proof.
  induction blocks as [|b bs IH]; [reflexivity|].
  cbn [concat filter]. intros H. apply app_eq_nil in H as [-> H].
  now apply IH.
Qed.

Lemma info_blocks_no_blank (body : list str) :
  Forall (fun l => truthy l = true) body ->
  info_blocks body = [info_lines body].
Proof.
  unfold info_lines.
  induction 1 as [|l body Hl _ IH]; [reflexivity|].
  cbn [info_blocks filter]. rewrite Hl, IH. cbn [negb andb].
  now destruct (startswith_any bullet_markers l).
Qed.

Lemma last_info_block_no_blank (body : list str) :
  Forall (fun l => truthy l = true) body ->
  last_info_block body = info_lines body.
Proof.
  intros H. unfold last_info_block. rewrite (info_blocks_no_blank H).
  cbn [filter]. now destruct (info_lines body).
Qed.

Lemma last_info_block_none (body : list str) :
  info_lines body = [] -> last_info_block body = [].
Proof.
  intros H. unfold last_info_block.
  rewrite filter_truthy_concat_nil; [reflexivity|].
  now rewrite concat_info_blocks.
Qed.

Lemma is_header_line_truthy (line : str) :
  is_header_line line = true -> truthy line = true.
Proof. now destruct line. Qed.

Lemma parse_headed_section (before body after : list str) (h : str) :
  Forall (fun l => is_header_line (strip l) = false) body ->
  after = [] \/
    (pending_block (map strip body) = [] /\
     is_header_line (strip (hd [] after)) = true) ->
  is_header_line (strip h) = true ->
  exists done,
    length done = length (parse_lines clean_text before) /\
    parse_lines clean_text (before ++ h :: body ++ after) =
    done
    ++ {| header := strip h;
          points := body_points clean_text (map strip body);
          info := join [SPACE] (last_info_block (map strip body)) |}
       :: parse_lines clean_text after.
Proof.
  intros Hbody Hclosed Hh.
  exists (flush (fold_left (consume clean_text) before initial)).
  split; [unfold parse_lines; now rewrite length_finish|].
  unfold parse_lines at 1.
  rewrite fold_left_app. cbn [fold_left].
  rewrite consume_header by assumption.
  rewrite (section_from_fresh _ _ Hbody Hclosed).
  unfold qualifies. cbn [header].
  now rewrite (is_header_line_truthy _ Hh).
Qed.

Lemma parse_leading_section (body after : list str) :
  Forall (fun l => is_header_line (strip l) = false) body ->
  after = [] \/
    (pending_block (map strip body) = [] /\
     is_header_line (strip (hd [] after)) = true) ->
  parse_lines clean_text (body ++ after) =
  (if truthy (body_points clean_text (map strip body))
   then [ {| header := [];
             points := body_points clean_text (map strip body);
             info := join [SPACE] (last_info_block (map strip body)) |} ]
   else [])
  ++ parse_lines clean_text after.
Proof.
  intros Hbody Hclosed. unfold parse_lines at 1, initial.
  now rewrite (section_from_fresh _ _ Hbody Hclosed).
Qed.

(** ** What the output holds *)

Lemma qualifies_kept (s : section) : qualifies s = true -> kept s.
Proof.
  unfold qualifies, kept. intros H. apply orb_true_iff in H as [H | H];
    [left | right]; intros E; rewrite E in H; discriminate.
Qed.

Lemma flush_kept (st : pstate) :
  Forall kept (sections st) -> Forall kept (flush st).
Proof.
  intros H. unfold flush.
  destruct (qualifies (current_section st)) eqn:E; [|assumption].
  apply Forall_app. split; [assumption|].
  constructor; [now apply qualifies_kept | constructor].
Qed.

Lemma consume_kept (st : pstate) (raw : str) :
  Forall kept (sections st) ->
  Forall kept (sections (consume clean_text st raw)).
Proof.
  intros H. unfold consume.
  destruct (negb (truthy (strip raw))).
  - now destruct (truthy (info_block st)).
  - destruct (is_header_line (strip raw)); [now apply flush_kept|].
    destruct (startswith_any bullet_markers (strip raw)); [|assumption].
    now destruct (truthy (bullet_point clean_text (strip raw))).
Qed.

Lemma fold_consume_kept (lines : list str) (st : pstate) :
  Forall kept (sections st) ->
  Forall kept (sections (fold_left (consume clean_text) lines st)).
Proof.
  revert st; induction lines as [|l lines IH]; intros st H; [assumption|].
  cbn [fold_left]. now apply IH, consume_kept.
Qed.

Lemma finish_kept (st : pstate) :
  Forall kept (sections st) -> Forall kept (finish st).
Proof.
  intros H. unfold finish.
  destruct (truthy (info_block st)); now apply flush_kept.
Qed.

Lemma truthy_not_nil (A : Type) (l : list A) : truthy l = true -> l <> [].
Proof. now destruct l. Qed.

Lemma flush_solid (st : pstate) : all_solid st -> Forall solid (flush st).
Proof.
  intros [H1 H2]. unfold flush.
  destruct (qualifies (current_section st)); [|assumption].
  apply Forall_app. split; [assumption | now constructor].
Qed.

Lemma consume_solid (st : pstate) (raw : str) :
  all_solid st -> all_solid (consume clean_text st raw).
Proof.
  intros H. pose proof H as [H1 H2]. unfold consume.
  destruct (negb (truthy (strip raw))).
  - destruct (truthy (info_block st)); [|assumption]. now split.
  - destruct (is_header_line (strip raw)).
    + split; [now apply flush_solid | intros []].
    + destruct (startswith_any bullet_markers (strip raw));
        [|now split].
      destruct (truthy (bullet_point clean_text (strip raw))) eqn:E;
        [|assumption].
      split; [assumption|].
      unfold solid, append_point. cbn [points sections current_section].
      intros Hin. apply in_app_or in Hin as [Hin | [Hin | []]].
      * now apply H2.
      * now apply truthy_not_nil in E.
Qed.

Lemma fold_consume_solid (lines : list str) (st : pstate) :
  all_solid st -> all_solid (fold_left (consume clean_text) lines st).
Proof.
  revert st; induction lines as [|l lines IH]; intros st H; [assumption|].
  cbn [fold_left]. now apply IH, consume_solid.
Qed.

Lemma finish_solid (st : pstate) : all_solid st -> Forall solid (finish st).
Proof.
  intros H. unfold finish.
  destruct (truthy (info_block st)); apply flush_solid; [|assumption].
  destruct H as [H1 H2]. now split.
Qed.

End Lines.

(** ** Header lines *)

Lemma split_hd_prefix (sep : char) (pre post : str) :
  ~ In sep pre -> hd [] (split sep (pre ++ sep :: post)) = pre.
Proof.
  induction pre as [|a pre IH]; intros H; cbn [app split].
  - now rewrite N.eqb_refl.
  - destruct (N.eqb_spec a sep) as [->|_]; [exfalso; apply H; now left|].
    assert (H' : ~ In sep pre) by (intros Hin; apply H; now right).
    specialize (IH H').
    destruct (split sep (pre ++ sep :: post)); cbn [hd] in *; now subst.
Qed.

Lemma split_hd_no_sep (sep : char) (s : str) :
  ~ In sep (hd [] (split sep s)).
Proof.
  induction s as [|c s IH]; cbn [split]; [intros []|].
  destruct (N.eqb_spec c sep) as [->|Hc]; [intros []|].
  destruct (split sep s) as [|p ps]; cbn [hd] in *.
  - intros [E | []]. now subst.
  - intros [E | Hin]; [now subst | now apply IH].
Qed.

Lemma mem_split (sep : char) (s : str) :
  mem sep s = true -> exists post, s = hd [] (split sep s) ++ sep :: post.
Proof.
  unfold mem. induction s as [|c s IH]; cbn [existsb split]; [discriminate|].
  rewrite N.eqb_sym.
  destruct (N.eqb_spec c sep) as [->|Hc]; cbn [orb].
  - intros _. now exists s.
  - intros H. destruct (IH H) as [post Hpost]. exists post.
    destruct (split sep s) as [|p ps]; cbn [hd] in *; now rewrite Hpost at 1.
Qed.

Lemma mem_middle (sep : char) (pre post : str) :
  mem sep (pre ++ sep :: post) = true.
Proof.
  unfold mem. rewrite existsb_app. cbn [existsb].
  now rewrite N.eqb_refl, orb_true_r.
Qed.

Lemma existsb_false_Forall (p : char -> bool) (s : str) :
  existsb p s = false <-> Forall (fun c => p c = false) s.
Proof.
  induction s as [|c s IH]; cbn [existsb].
  - split; [constructor | reflexivity].
  - rewrite orb_false_iff, IH. split.
    + intros [H1 H2]. now constructor.
    + intros H. now inversion H.
Qed.

(** A header line: a colon, and no digit before the first one. *)
Lemma is_header_line_spec (line : str) :
  is_header_line line = true <->
  exists pre post,
    line = pre ++ COLON :: post /\ ~ In COLON pre /\
    Forall (fun c => isdigit c = false) pre.
Proof.
  unfold is_header_line. rewrite andb_true_iff, negb_true_iff. split.
  - intros [Hmem Hdig]. destruct (mem_split _ _ Hmem) as [post Hpost].
    exists (hd [] (split COLON line)), post.
    split; [assumption|]. split; [apply split_hd_no_sep|].
    now apply existsb_false_Forall.
  - intros (pre & post & -> & Hpre & Hdig).
    rewrite mem_middle, split_hd_prefix by assumption.
    split; [reflexivity | now apply existsb_false_Forall].
Qed.

Lemma app_neq_self (A : Type) (l : list A) (x : A) : l <> l ++ [x].
Proof.
  intros H. apply (f_equal (@length A)) in H.
  rewrite length_app in H. cbn in H. lia.
Qed.

Lemma lstrip_by_spec (p : char -> bool) (s : str) :
  exists pre,
    s = pre ++ lstrip_by p s /\ Forall (fun c => p c = true) pre /\
    (forall c rest, lstrip_by p s = c :: rest -> p c = false).
Proof.
  induction s as [|c s (pre & H1 & H2 & H3)]; cbn [lstrip_by].
  - exists []. repeat split; [constructor | discriminate].
  - destruct (p c) eqn:E.
    + exists (c :: pre). cbn [app]. rewrite <- H1.
      repeat split; [now constructor | assumption].
    + exists []. repeat split; [constructor|].
      intros c' rest H. now inversion H; subst.
Qed.

Lemma mem_In (c : char) (cs : str) : mem c cs = true <-> In c cs.
Proof.
  unfold mem. rewrite existsb_exists. split.
  - intros (x & Hin & E). apply N.eqb_eq in E. now subst.
  - intros H. exists c. split; [assumption | apply N.eqb_refl].
Qed.

(** ** The sections of a body *)

(** C2.  A non-blank line is taken as a header, which is to say that the
    current section goes to the output when it has a header or a point and
    a new section with this line as its header takes its place, the info
    buffer being emptied, exactly when the line has a colon and no digit
    before its first colon.  The line "10:30 Check-in" goes to the info
    buffer, whatever the state. *)
Theorem header_line_rule (clean_text : str -> str) (st : pstate)
    (raw : str) :
  (strip raw <> [] ->
   consume clean_text st raw =
   {| sections :=
        if truthy (header (current_section st))
           || truthy (points (current_section st))
        then sections st ++ [current_section st]
        else sections st;
      current_section :=
        {| header := strip raw; points := []; info := [] |};
      info_block := [] |}
   <->
   exists pre post,
     strip raw = pre ++ COLON :: post /\ ~ In COLON pre /\
     Forall (fun c => isdigit c = false) pre)
  /\ consume clean_text st (lit "10:30 Check-in") =
     {| sections := sections st;
        current_section := current_section st;
        info_block := info_block st ++ [lit "10:30 Check-in"] |}.
Proof.
  split; [|reflexivity].
  intros Hne. rewrite <- is_header_line_spec.
  assert (Ht : truthy (strip raw) = true) by now destruct (strip raw).
  split.
  - intros H. destruct (is_header_line (strip raw)) eqn:Hh; [reflexivity|].
    exfalso.
    destruct (startswith_any bullet_markers (strip raw)) eqn:Hb.
    + rewrite consume_bullet in H by assumption.
      destruct (truthy (bullet_point clean_text (strip raw))).
      * apply (f_equal current_section) in H.
        apply (f_equal points) in H.
        cbn [current_section append_point points] in H.
        now destruct (points (current_section st)).
      * pose proof (f_equal current_section H) as Hc.
        apply (f_equal sections) in H.
        cbn [current_section sections] in *.
        rewrite Hc in H at 1. cbn [header] in H. rewrite Ht in H.
        cbn [orb] in H. now apply app_neq_self in H.
    + rewrite consume_info in H by assumption.
      apply (f_equal info_block) in H. cbn [info_block] in H.
      now destruct (info_block st).
  - intros Hh. now rewrite consume_header.
Qed.

Lemma header_line_rule_witness :
  let raw := lit "  Accommodation: boutique hotel" in
  strip raw <> [] /\
  (consume clean_text_spec initial raw =
   {| sections := [];
      current_section :=
        {| header := lit "Accommodation: boutique hotel"; points := [];
           info := [] |};
      info_block := [] |}
   <->
   exists pre post,
     strip raw = pre ++ COLON :: post /\ ~ In COLON pre /\
     Forall (fun c => isdigit c = false) pre).
Proof.
  cbv zeta. split; [vm_compute; discriminate|].
  apply (proj1 (header_line_rule clean_text_spec initial
                  (lit "  Accommodation: boutique hotel"))).
  vm_compute; discriminate.
Defined.

(** C5, as the code has it.  A body is the run of lines, none of them a
    header line, that follows a header line (or that starts the content)
    up to the next header line or to the end.  When its last block of info
    lines is closed, by a blank line or by the end of the content, the
    section has the space-join of the last non-empty info block of the
    body as its info: the info lines, neither blank nor bullet lines, that
    no blank line parts.  That is every info line when the body has no
    blank line, and the empty string when it has no info line. *)
Theorem section_info_last_block (clean_text : str -> str)
    (body after : list str) :
  Forall (fun l => is_header_line (strip l) = false) body ->
  after = [] \/
    (pending_block (map strip body) = [] /\
     is_header_line (strip (hd [] after)) = true) ->
  let lines := map strip body in
  let section_of (h : str) :=
    {| header := h;
       points := body_points clean_text lines;
       info := join [SPACE] (last_info_block lines) |} in
  (forall (content : str) (before : list str) (h : str),
     split NL content = before ++ h :: body ++ after ->
     is_header_line (strip h) = true ->
     exists done,
       length done = length (parse_lines clean_text before) /\
       parse_section clean_text content =
       done ++ section_of (strip h) :: parse_lines clean_text after)
  /\ (forall content : str,
        split NL content = body ++ after ->
        parse_section clean_text content =
        (if truthy (body_points clean_text lines)
         then [section_of []] else [])
        ++ parse_lines clean_text after)
  /\ (Forall (fun l => truthy l = true) lines ->
      last_info_block lines = info_lines lines)
  /\ (info_lines lines = [] -> last_info_block lines = []).
Proof.
  intros Hbody Hclosed lines section_of. repeat split.
  - intros content before h Hsplit Hh. unfold parse_section.
    rewrite Hsplit. now apply parse_headed_section.
  - intros content Hsplit. unfold parse_section.
    rewrite Hsplit. now apply parse_leading_section.
  - apply last_info_block_no_blank.
  - apply last_info_block_none.
Qed.

Lemma section_info_last_block_witness :
  let body := [lit "Free time."; []; lit " Bring a coat."; lit "- Walk"] in
  Forall (fun l => is_header_line (strip l) = false) body /\
  exists done,
    length done = 0 /\
    parse_section clean_text_spec
      (text ["Evening:"; "Free time."; ""; " Bring a coat."; "- Walk"])
    = done ++ [ {| header := lit "Evening:";
                   points := [lit "Walk"];
                   info := lit "Bring a coat." |} ].
Proof.
  cbv zeta.
  assert (Hbody : Forall (fun l => is_header_line (strip l) = false)
                    [lit "Free time."; []; lit " Bring a coat.";
                     lit "- Walk"])
    by forall_by_evaluation.
  split; [exact Hbody|].
  exact (proj1 (section_info_last_block clean_text_spec (after := [])
                  Hbody (or_introl eq_refl))
           (text ["Evening:"; "Free time."; ""; " Bring a coat."; "- Walk"])
           [] (lit "Evening:") eq_refl eq_refl).
Defined.

(** C5 as stated fails: after a blank line, the lines of a new info block
    take the place of the ones before instead of following them. *)
Lemma info_keeps_last_block_only :
  parse_section clean_text_spec (text ["H:"; "a"; ""; "b"])
  = [ {| header := lit "H:"; points := []; info := lit "b" |} ]
  /\ join [SPACE] (info_lines [lit "a"; []; lit "b"]) = lit "a b"
  /\ lit "b" <> lit "a b".
Proof. repeat split. discriminate. Qed.

(** C6.  Every section of the output has a header or a point; a content
    without any header line or bullet line gives no section at all. *)
Theorem sections_have_header_or_points (clean_text : str -> str)
    (content : str) :
  Forall (fun s => header s <> [] \/ points s <> [])
    (parse_section clean_text content)
  /\ (Forall
        (fun l => is_header_line (strip l) = false /\
                  startswith_any bullet_markers (strip l) = false)
        (split NL content) ->
      parse_section clean_text content = []).
Proof.
  split.
  - apply finish_kept, fold_consume_kept. constructor.
  - intros H. unfold parse_section.
    rewrite <- (app_nil_r (split NL content)).
    rewrite parse_leading_section.
    + assert (Hp : body_points clean_text (map strip (split NL content))
                   = []).
      { unfold body_points.
        induction H as [|l ls [_ Hl] _ IH]; [reflexivity|].
        cbn [map filter]. now rewrite Hl. }
      now rewrite Hp.
    + eapply Forall_impl; [|exact H]. now intros l [Hl _].
    + now left.
Qed.

Lemma sections_have_header_or_points_witness :
  let content := text ["Free time."; "10:30 Check-in"] in
  Forall
    (fun l => is_header_line (strip l) = false /\
              startswith_any bullet_markers (strip l) = false)
    (split NL content)
  /\ parse_section clean_text_spec content = [].
Proof.
  cbv zeta.
  assert (H : Forall
                (fun l => is_header_line (strip l) = false /\
                          startswith_any bullet_markers (strip l) = false)
                (split NL (text ["Free time."; "10:30 Check-in"]))).
  { change (split NL (text ["Free time."; "10:30 Check-in"]))
      with [lit "Free time."; lit "10:30 Check-in"].
    forall_by_evaluation. }
  split; [exact H|].
  exact (proj2 (sections_have_header_or_points clean_text_spec
                  (text ["Free time."; "10:30 Check-in"])) H).
Defined.

(** C9, as the code has it.  For a line that starts with a bullet marker
    and is not a header line, the point is what the cleaning pass gives for
    the line without its leading run of marker characters and spaces,
    however many they are; it is appended to the points of the current
    section when it is not empty, and the state is left as it was when it
    is.  No point of the output is the empty string. *)
Theorem bullet_point_rule (clean_text : str -> str) :
  (forall (st : pstate) (raw : str),
     startswith_any bullet_markers (strip raw) = true ->
     is_header_line (strip raw) = false ->
     exists pre rest,
       strip raw = pre ++ rest /\ pre <> [] /\
       Forall (fun c => In c [BULLET; DASH; STAR; SPACE]) pre /\
       ~ In (hd NL rest) [BULLET; DASH; STAR; SPACE] /\
       consume clean_text st raw =
       if truthy (clean_text rest)
       then {| sections := sections st;
               current_section :=
                 append_point (current_section st) (clean_text rest);
               info_block := info_block st |}
       else st)
  /\ (forall content : str,
        Forall (fun s => ~ In [] (points s))
          (parse_section clean_text content)).
Proof.
  split.
  - intros st raw Hb Hh.
    destruct (lstrip_by_spec
                (fun c => mem c [BULLET; DASH; STAR; SPACE]) (strip raw))
      as (pre & H1 & H2 & H3).
    exists pre, (lstrip [BULLET; DASH; STAR; SPACE] (strip raw)).
    split; [exact H1|]. split.
    { intros ->. cbn [app] in H1.
      destruct (strip raw) as [|c l] eqn:E; [discriminate|].
      specialize (H3 c l (eq_sym H1)).
      unfold startswith_any, bullet_markers in Hb.
      cbn [existsb startswith] in Hb.
      unfold mem in H3. cbn [existsb] in H3.
      rewrite (N.eqb_sym c BULLET), (N.eqb_sym c DASH),
        (N.eqb_sym c STAR) in H3.
      destruct (BULLET =? c)%N, (DASH =? c)%N, (STAR =? c)%N;
        discriminate. }
    split.
    { eapply Forall_impl; [|exact H2]. intros c Hc. now apply mem_In. }
    split.
    { unfold lstrip.
      destruct (lstrip_by _ (strip raw)) as [|c l] eqn:E; cbn [hd].
      - vm_compute. intuition discriminate.
      - intros Hin. apply mem_In in Hin.
        specialize (H3 c l eq_refl). congruence. }
    now rewrite consume_bullet.
  - intros content. apply finish_solid, fold_consume_solid.
    split; [constructor | intros []].
Qed.

Lemma bullet_point_rule_witness :
  let raw := lit " - * Visit   museum " in
  startswith_any bullet_markers (strip raw) = true /\
  is_header_line (strip raw) = false /\
  exists pre rest,
    strip raw = pre ++ rest /\ pre <> [] /\
    Forall (fun c => In c [BULLET; DASH; STAR; SPACE]) pre /\
    ~ In (hd NL rest) [BULLET; DASH; STAR; SPACE] /\
    consume clean_text_spec initial raw =
    if truthy (clean_text_spec rest)
    then {| sections := [];
            current_section :=
              append_point (current_section initial) (clean_text_spec rest);
            info_block := [] |}
    else initial.
Proof.
  cbv zeta. split; [reflexivity|]. split; [reflexivity|].
  exact (proj1 (bullet_point_rule clean_text_spec) initial
           (lit " - * Visit   museum ") eq_refl eq_refl).
Defined.

(** C9 as stated fails: of a line that starts with two markers both go, not
    the first one only, and a line that starts with a marker and reads as a
    header line leaves no point at all. *)
Lemma bullet_strips_every_leading_marker :
  (parse_section clean_text_spec (lit "--x")
   = [ {| header := []; points := [lit "x"]; info := [] |} ]
   /\ clean_text_spec (single_marker_stripped (lit "--x")) = lit "-x"
   /\ lit "x" <> lit "-x")
  /\ (startswith_any bullet_markers (lit "- Lunch: pasta") = true
      /\ parse_section clean_text_spec (lit "- Lunch: pasta")
         = [ {| header := lit "- Lunch: pasta"; points := []; info := [] |} ]).
Proof. repeat split. discriminate. Qed.

(** ** Two runs of the whole *)

(** The scenario of the specification: one day, a section with two points
    and a section with an info line. *)
Example one_day_two_sections :
  let plan :=
    text ["Day 1:"; "Morning:"; "- Breakfast"; "- City tour"; "Evening:";
          "Free time."] in
  re_split_day plan = [[]; plan]
  /\ day_header_content plan
     = (lit "Day 1:",
        text ["Morning:"; "- Breakfast"; "- City tour"; "Evening:";
              "Free time."])
  /\ parse_section clean_text_spec (snd (day_header_content plan))
     = [ {| header := lit "Morning:";
            points := [lit "Breakfast"; lit "City tour"];
            info := [] |};
         {| header := lit "Evening:"; points := [];
            info := lit "Free time." |} ].
Proof. vm_compute. repeat split. Qed.

(** Info lines that no blank line has closed when the next header line
    comes are not kept, while the same lines at the end of the content
    are. *)
Example info_pending_at_header :
  parse_section clean_text_spec
    (text ["Morning:"; "Free time."; "Evening:"; "- Dinner"])
  = [ {| header := lit "Morning:"; points := []; info := [] |};
      {| header := lit "Evening:"; points := [lit "Dinner"]; info := [] |} ]
  /\ parse_section clean_text_spec (text ["Morning:"; "Free time."])
     = [ {| header := lit "Morning:"; points := [];
            info := lit "Free time." |} ].
Proof. vm_compute. split; reflexivity. Qed.

(** * Further properties *)

(** ** Headers and points of a content *)

Section Traces.
Variable clean_text : str -> str.

Lemma header_trace_flush (st : pstate) :
  filter truthy (map header (flush st)) = header_trace st.
Proof.
  unfold flush, header_trace, qualifies.
  destruct (truthy (header (current_section st))) eqn:E; cbn [orb].
  - rewrite map_app, filter_app. cbn [map filter]. now rewrite E.
  - destruct (truthy (points (current_section st)));
      rewrite ?map_app, ?filter_app; cbn [map filter]; rewrite ?E;
      now rewrite ?app_nil_r.
Qed.

Lemma header_trace_consume (st : pstate) (raw : str) :
  header_trace (consume clean_text st raw) =
  header_trace st
  ++ (if is_header_line (strip raw) then [strip raw] else []).
Proof.
  destruct (is_header_line (strip raw)) eqn:Hh.
  - rewrite consume_header by assumption.
    unfold header_trace at 1. cbn [sections current_section header].
    now rewrite header_trace_flush, (is_header_line_truthy _ Hh).
  - rewrite app_nil_r. unfold consume. rewrite Hh.
    destruct (negb (truthy (strip raw))).
    + now destruct (truthy (info_block st)).
    + destruct (startswith_any bullet_markers (strip raw)); [|reflexivity].
      now destruct (truthy (bullet_point clean_text (strip raw))).
Qed.

Lemma header_trace_fold (lines : list str) (st : pstate) :
  header_trace (fold_left (consume clean_text) lines st) =
  header_trace st ++ filter is_header_line (map strip lines).
Proof.
  revert st; induction lines as [|l lines IH]; intros st; cbn [fold_left].
  - now rewrite app_nil_r.
  - rewrite IH, header_trace_consume, <- app_assoc. cbn [map filter].
    now destruct (is_header_line (strip l)).
Qed.

Lemma header_trace_finish (st : pstate) :
  filter truthy (map header (finish st)) = header_trace st.
Proof.
  unfold finish. destruct (truthy (info_block st));
    now rewrite header_trace_flush.
Qed.

Lemma point_trace_flush (st : pstate) :
  concat (map points (flush st)) = point_trace st.
Proof.
  unfold flush, point_trace, qualifies.
  destruct (truthy (header (current_section st))
            || truthy (points (current_section st))) eqn:E.
  - rewrite map_app, concat_app. cbn [map concat]. now rewrite app_nil_r.
  - apply orb_false_iff in E as [_ E].
    destruct (points (current_section st)); [|discriminate].
    now rewrite app_nil_r.
Qed.

Lemma point_trace_consume (st : pstate) (raw : str) :
  point_trace (consume clean_text st raw) =
  point_trace st
  ++ filter truthy
       (map (bullet_point clean_text) (filter is_point_line [strip raw])).
Proof.
  cbn [filter]. unfold is_point_line.
  destruct (is_header_line (strip raw)) eqn:Hh; cbn [negb andb map filter].
  - rewrite consume_header by assumption.
    unfold point_trace at 1. cbn [sections current_section points].
    now rewrite point_trace_flush, !app_nil_r.
  - destruct (startswith_any bullet_markers (strip raw)) eqn:Hb;
      cbn [map filter].
    + rewrite consume_bullet by assumption.
      destruct (truthy (bullet_point clean_text (strip raw)));
        [|now rewrite app_nil_r].
      unfold point_trace. cbn [sections current_section append_point points].
      now rewrite app_assoc.
    + rewrite app_nil_r. unfold consume. rewrite Hh, Hb.
      destruct (negb (truthy (strip raw))); [|reflexivity].
      now destruct (truthy (info_block st)).
Qed.

Lemma point_trace_fold (lines : list str) (st : pstate) :
  point_trace (fold_left (consume clean_text) lines st) =
  point_trace st
  ++ filter truthy
       (map (bullet_point clean_text)
          (filter is_point_line (map strip lines))).
Proof.
  revert st; induction lines as [|l lines IH]; intros st; cbn [fold_left].
  - now rewrite app_nil_r.
  - rewrite IH, point_trace_consume, <- app_assoc. f_equal.
    cbn [map filter].
    destruct (is_point_line (strip l)); cbn [map filter app];
      [|reflexivity].
    now destruct (truthy (bullet_point clean_text (strip l))).
Qed.

Lemma point_trace_finish (st : pstate) :
  concat (map points (finish st)) = point_trace st.
Proof.
  unfold finish. destruct (truthy (info_block st));
    now rewrite point_trace_flush.
Qed.

Lemma headed_flush (st : pstate) :
  headed_after_first st ->
  Forall (fun s => header s <> []) (tl (flush st)).
Proof.
  intros [H1 H2]. unfold flush.
  destruct (qualifies (current_section st)); [|assumption].
  destruct (sections st) as [|s ss] eqn:E; cbn [app tl]; [constructor|].
  cbn [tl] in H1. apply Forall_app. split; [assumption|].
  constructor; [|constructor]. intros Hh. now specialize (H2 Hh).
Qed.

Lemma headed_consume (st : pstate) (raw : str) :
  headed_after_first st -> headed_after_first (consume clean_text st raw).
Proof.
  intros H. destruct (is_header_line (strip raw)) eqn:Hh.
  - rewrite consume_header by assumption. split.
    + cbn [sections]. now apply headed_flush.
    + cbn [current_section header]. intros E.
      apply is_header_line_truthy in Hh. rewrite E in Hh. discriminate.
  - unfold consume. rewrite Hh.
    destruct (negb (truthy (strip raw))).
    + now destruct (truthy (info_block st)).
    + destruct (startswith_any bullet_markers (strip raw)); [|assumption].
      now destruct (truthy (bullet_point clean_text (strip raw))).
Qed.

Lemma headed_fold (lines : list str) (st : pstate) :
  headed_after_first st ->
  headed_after_first (fold_left (consume clean_text) lines st).
Proof.
  revert st; induction lines as [|l lines IH]; intros st H; [assumption|].
  cbn [fold_left]. now apply IH, headed_consume.
Qed.

Lemma headed_finish (st : pstate) :
  headed_after_first st ->
  Forall (fun s => header s <> []) (tl (finish st)).
Proof.
  intros H. unfold finish.
  destruct (truthy (info_block st)); apply headed_flush; [|assumption].
  destruct H as [H1 H2]. now split.
Qed.

(** X1.  The non-empty headers of the sections of a content are its header
    lines, stripped, each one once and in the order of the content. *)
Theorem headers_in_order (content : str) :
  filter truthy (map header (parse_section clean_text content)) =
  filter is_header_line (map strip (split NL content)).
Proof.
  unfold parse_section, parse_lines.
  now rewrite header_trace_finish, header_trace_fold.
Qed.

(** X2.  The points of the sections, put end to end, are the cleaned points
    of the bullet lines of the content that are not header lines, the
    empty ones left out: no point is lost, doubled or moved. *)
Theorem points_in_order (content : str) :
  concat (map points (parse_section clean_text content)) =
  filter truthy
    (map (bullet_point clean_text)
       (filter is_point_line (map strip (split NL content)))).
Proof.
  unfold parse_section, parse_lines.
  now rewrite point_trace_finish, point_trace_fold.
Qed.

(** X3.  Only the first section of the output can be without a header: every
    section after it has one. *)
Theorem only_first_section_headless (content : str) :
  Forall (fun s => header s <> []) (tl (parse_section clean_text content)).
Proof.
  unfold parse_section, parse_lines.
  apply headed_finish, headed_fold. split; [constructor | reflexivity].
Qed.

End Traces.

(** ** Whitespace around a line *)

Lemma lstrip_by_fixed (p : char -> bool) (u : str) :
  (forall c rest, u = c :: rest -> p c = false) -> lstrip_by p u = u.
Proof.
  destruct u as [|c u]; [reflexivity|]. intros H. cbn [lstrip_by].
  now rewrite (H c u eq_refl).
Qed.

Lemma lstrip_by_head (p : char -> bool) (s : str) (c : char) (rest : str) :
  lstrip_by p s = c :: rest -> p c = false.
Proof.
  destruct (lstrip_by_spec p s) as (pre & _ & _ & H). apply H.
Qed.

Lemma strip_strip (s : str) : strip (strip s) = strip s.
Proof.
  unfold strip at 2 3. unfold rstrip_by.
  set (t := lstrip_by isspace s).
  set (u := lstrip_by isspace (rev t)).
  assert (Hu : forall c rest, u = c :: rest -> isspace c = false)
    by (intros c rest; apply lstrip_by_head).
  assert (Ht : forall c rest, t = c :: rest -> isspace c = false)
    by (intros c rest; apply lstrip_by_head).
  assert (Hr : forall c rest, rev u = c :: rest -> isspace c = false).
  { intros c rest E.
    destruct (lstrip_by_spec isspace (rev t)) as (pre & Hpre & _ & _).
    fold u in Hpre. apply (f_equal (@rev char)) in Hpre.
    rewrite rev_involutive, rev_app_distr, E in Hpre.
    cbn [app] in Hpre. now apply (Ht c _ Hpre). }
  unfold strip, rstrip_by.
  rewrite (lstrip_by_fixed _ Hr), rev_involutive.
  now rewrite (lstrip_by_fixed _ Hu).
Qed.

Section Indentation.
Variable clean_text : str -> str.

Lemma consume_strip (st : pstate) (raw : str) :
  consume clean_text st (strip raw) = consume clean_text st raw.
Proof. unfold consume. now rewrite strip_strip. Qed.

Lemma fold_consume_strip (lines : list str) (st : pstate) :
  fold_left (consume clean_text) (map strip lines) st =
  fold_left (consume clean_text) lines st.
Proof.
  revert st; induction lines as [|l lines IH]; intros st; [reflexivity|].
  cbn [map fold_left]. now rewrite consume_strip, IH.
Qed.

(** X5.  The whitespace at the two ends of a line does not count: the lines
    stripped beforehand give the same sections. *)
Theorem parse_lines_strip (lines : list str) :
  parse_lines clean_text (map strip lines) = parse_lines clean_text lines.
Proof. unfold parse_lines. now rewrite fold_consume_strip. Qed.

End Indentation.

(** ** Where an info field comes from *)

Section InfoLines.
Variable clean_text : str -> str.
Variable lines : list str.

Lemma info_from_buffer (buf : list str) :
  Forall (fun l => is_info_line l = true /\ In l lines) buf ->
  truthy buf = true ->
  info_from lines (join [SPACE] buf).
Proof.
  intros H Ht. right. exists buf. repeat split; [|assumption].
  now destruct buf.
Qed.

Lemma info_sound_flush (st : pstate) :
  info_sound lines st ->
  Forall (fun s => info_from lines (info s)) (flush st).
Proof.
  intros (H1 & H2 & H3). unfold flush.
  destruct (qualifies (current_section st)); [|assumption].
  apply Forall_app. split; [assumption | now constructor].
Qed.

Lemma info_sound_consume (st : pstate) (raw : str) :
  In (strip raw) lines ->
  info_sound lines st -> info_sound lines (consume clean_text st raw).
Proof.
  intros Hin H. pose proof H as (H1 & H2 & H3). unfold consume.
  destruct (truthy (strip raw)) eqn:Ht; cbn [negb].
  - destruct (is_header_line (strip raw)) eqn:Hh.
    + split; [constructor|]. split; [now left|].
      now apply info_sound_flush.
    + destruct (startswith_any bullet_markers (strip raw)) eqn:Hb.
      * destruct (truthy (bullet_point clean_text (strip raw)));
          [|assumption].
        now repeat split.
      * split; [|now split].
        cbn [info_block]. apply Forall_app. split; [assumption|].
        constructor; [|constructor]. split; [|assumption].
        unfold is_info_line. now rewrite Ht, Hh, Hb.
  - destruct (truthy (info_block st)) eqn:Hb; [|assumption].
    split; [constructor|]. split; [|assumption].
    cbn [current_section set_info info]. now apply info_from_buffer.
Qed.

Lemma info_sound_fold (ls : list str) (st : pstate) :
  Forall (fun raw => In (strip raw) lines) ls ->
  info_sound lines st ->
  info_sound lines (fold_left (consume clean_text) ls st).
Proof.
  intros Hls; revert st.
  induction Hls as [|l ls Hl _ IH]; intros st H; [assumption|].
  cbn [fold_left]. now apply IH, info_sound_consume.
Qed.

Lemma info_sound_finish (st : pstate) :
  info_sound lines st ->
  Forall (fun s => info_from lines (info s)) (finish st).
Proof.
  intros H. unfold finish.
  destruct (truthy (info_block st)) eqn:Hb;
    apply info_sound_flush; [|assumption].
  destruct H as (H1 & H2 & H3). split; [assumption|]. split; [|assumption].
  cbn [current_section set_info info]. now apply info_from_buffer.
Qed.

End InfoLines.

(** X4.  The info of a section is empty or the space-join of one or more
    info lines of the content, stripped: non-blank lines that are neither
    header lines nor bullet lines.  No header or bullet line gets into it. *)
Theorem info_from_info_lines (clean_text : str -> str) (content : str) :
  Forall
    (fun s => info_from (map strip (split NL content)) (info s))
    (parse_section clean_text content).
Proof.
  unfold parse_section, parse_lines.
  apply info_sound_finish, info_sound_fold.
  - apply Forall_forall. intros raw Hin. now apply in_map.
  - split; [constructor|]. split; [now left | constructor].
Qed.

(** ** Markers in a chunk *)

Lemma piece_inner_no_match (s : str) (p : nat) :
  0 < p -> match_day (skipn p (fst (split_from s))) = false.
Proof.
  revert p; induction s as [|c s IH]; intros p Hp.
  - now destruct p.
  - rewrite split_from_cons. destruct p as [|p]; [lia|].
    destruct (match_day s) eqn:E; cbn [fst skipn].
    + now destruct p.
    + destruct p as [|p]; [|apply IH; lia].
      cbn [skipn].
      destruct (match_day (fst (split_from s))) eqn:E'; [|reflexivity].
      apply (match_day_app _ (concat (snd (split_from s)))) in E'.
      rewrite split_from_concat in E'. congruence.
Qed.

Lemma later_pieces_inner_no_match (s : str) :
  Forall (fun c => forall p, 0 < p -> match_day (skipn p c) = false)
    (snd (split_from s)).
Proof.
  induction s as [|c s IH]; [constructor|].
  rewrite split_from_cons.
  destruct (match_day s); cbn [snd]; [|assumption].
  constructor; [|assumption]. intros p. apply piece_inner_no_match.
Qed.

Lemma filter_none (A : Type) (f : A -> bool) (l : list A) :
  (forall x, In x l -> f x = false) -> filter f l = [].
Proof.
  induction l as [|a l IH]; intros H; [reflexivity|].
  cbn [filter]. rewrite (H a) by now left.
  apply IH. intros x Hx. apply H. now right.
Qed.

Lemma marker_positions_start_only (c : str) :
  (forall p, 0 < p -> match_day (skipn p c) = false) ->
  marker_positions c = if match_day c then [0] else [].
Proof.
  intros H. unfold marker_positions.
  destruct c as [|x c]; [reflexivity|].
  cbn [length seq filter]. change (skipn 0 (x :: c)) with (x :: c).
  rewrite (filter_none (fun p => match_day (skipn p (x :: c))));
    [reflexivity|].
  intros p Hp. apply in_seq in Hp. apply H. lia.
Qed.

(** X6.  The first chunk of the split holds no day marker, and every other
    chunk holds exactly one, at its start. *)
Theorem one_marker_per_chunk (plan : str) :
  marker_positions (hd [] (re_split_day plan)) = []
  /\ Forall (fun chunk => marker_positions chunk = [0])
       (tl (re_split_day plan)).
Proof.
  assert (Hall : Forall
            (fun c => forall p, 0 < p -> match_day (skipn p c) = false)
            (re_split_day plan)).
  { rewrite re_split_day_unfold.
    destruct (match_day plan); repeat constructor;
      try (intros p; apply piece_inner_no_match);
      try apply later_pieces_inner_no_match.
    intros p _. now destruct p. }
  rewrite (re_split_day_cons plan) in Hall.
  apply Forall_cons_iff in Hall as [H0 Ht]. split.
  - now rewrite (marker_positions_start_only _ H0),
      hd_re_split_day_no_match.
  - pose proof (tl_re_split_day_match plan) as Hm.
    rewrite Forall_forall in *. intros c Hc.
    now rewrite (marker_positions_start_only _ (Ht c Hc)), (Hm c Hc).
Qed.

(** ** Lines of a chunk *)

Lemma split_cons (sep : char) (s : str) :
  split sep s = hd [] (split sep s) :: tl (split sep s).
Proof.
  induction s as [|c s IH]; [reflexivity|]. cbn [split].
  destruct (c =? sep)%N; [reflexivity|]. now rewrite IH.
Qed.

Lemma join_cons (sep : str) (p : str) (ps : list str) :
  ps <> [] -> join sep (p :: ps) = p ++ sep ++ join sep ps.
Proof. now destruct ps. Qed.

Lemma join_split (sep : char) (s : str) : join [sep] (split sep s) = s.
Proof.
  induction s as [|c s IH]; [reflexivity|]. cbn [split].
  rewrite (split_cons sep s) in *.
  destruct (N.eqb_spec c sep) as [->|_].
  - rewrite join_cons by discriminate. cbn [app]. now rewrite IH.
  - destruct (tl (split sep s)) as [|q qs].
    + cbn [join] in *. now rewrite IH.
    + rewrite join_cons in * by discriminate.
      cbn [app] in *. now rewrite IH.
Qed.

Lemma split_no_sep (sep : char) (s : str) :
  Forall (fun l => ~ In sep l) (split sep s).
Proof.
  induction s as [|c s IH]; cbn [split].
  - constructor; [intros [] | constructor].
  - destruct (N.eqb_spec c sep) as [->|Hc].
    + constructor; [intros [] | assumption].
    + rewrite (split_cons sep s) in *.
      apply Forall_cons_iff in IH as [H1 H2].
      constructor; [|assumption].
      intros [E | Hin]; [now subst | now apply H1].
Qed.

Lemma split_line (sep : char) (l : str) :
  ~ In sep l -> split sep l = [l].
Proof.
  induction l as [|c l IH]; intros H; [reflexivity|]. cbn [split].
  destruct (N.eqb_spec c sep) as [->|_]; [exfalso; apply H; now left|].
  rewrite IH; [reflexivity|]. intros Hin. apply H. now right.
Qed.

Lemma split_app_sep (sep : char) (l rest : str) :
  ~ In sep l -> split sep (l ++ sep :: rest) = l :: split sep rest.
Proof.
  induction l as [|c l IH]; intros H; cbn [app split].
  - now rewrite N.eqb_refl.
  - destruct (N.eqb_spec c sep) as [->|_]; [exfalso; apply H; now left|].
    rewrite IH; [reflexivity|]. intros Hin. apply H. now right.
Qed.

Lemma split_join (sep : char) (ls : list str) :
  ls <> [] -> Forall (fun l => ~ In sep l) ls ->
  split sep (join [sep] ls) = ls.
Proof.
  intros Hne H. induction H as [|l ls Hl Hls IH]; [contradiction|].
  destruct ls as [|l2 ls].
  - cbn [join]. now apply split_line.
  - rewrite join_cons by discriminate. cbn [app].
    rewrite split_app_sep by assumption.
    now rewrite IH.
Qed.

(** X7.  For a chunk that starts with a marker, the header is not empty and
    has no line break, and the header, a line break and the content give
    the chunk back; a chunk of one line is its own header, with an empty
    content. *)
Theorem day_header_content_round_trip (day : str) :
  match_day day = true ->
  let h := fst (day_header_content day) in
  let c := snd (day_header_content day) in
  h <> [] /\ ~ In NL h /\
  (day = h ++ NL :: c \/ (day = h /\ c = [])).
Proof.
  intros Hm. unfold day_header_content. rewrite Hm. cbn [fst snd].
  pose proof (join_split NL day) as Hj.
  pose proof (split_no_sep NL day) as Hn.
  rewrite (split_cons NL day) in Hj, Hn.
  apply Forall_cons_iff in Hn as [Hh _].
  split; [|split; [exact Hh|]].
  - destruct day as [|x day]; [discriminate|].
    apply match_day_head in Hm. subst x.
    change (hd [] (split NL (68%N :: day))) with (first_line (68%N :: day)).
    now rewrite first_line_cons.
  - destruct (tl (split NL day)) as [|q qs].
    + right. now rewrite <- Hj at 1.
    + left. rewrite join_cons in Hj by discriminate. now rewrite <- Hj at 1.
Qed.

Lemma day_header_content_round_trip_witness :
  let day := text ["Day 1: Rome"; "Morning:"; "- Walk"] in
  match_day day = true /\
  fst (day_header_content day) <> [] /\
  ~ In NL (fst (day_header_content day)) /\
  (day = fst (day_header_content day) ++ NL :: snd (day_header_content day)
   \/ (day = fst (day_header_content day)
       /\ snd (day_header_content day) = [])).
Proof.
  cbv zeta. split; [vm_compute; reflexivity|].
  apply (day_header_content_round_trip
           (text ["Day 1: Rome"; "Morning:"; "- Walk"])).
  vm_compute; reflexivity.
Defined.

(** X8.  The sections of a day that starts with a marker are those of the
    lines after its first line: the marker line is not parsed. *)
Theorem marker_day_sections (clean_text : str -> str) (day : str) :
  match_day day = true ->
  parse_section clean_text (snd (day_header_content day)) =
  parse_lines clean_text (tl (split NL day)).
Proof.
  intros Hm. unfold day_header_content. rewrite Hm. cbn [snd].
  unfold parse_section.
  pose proof (split_no_sep NL day) as Hn.
  rewrite (split_cons NL day) in Hn.
  apply Forall_cons_iff in Hn as [_ Hn].
  destruct (tl (split NL day)) as [|q qs]; [reflexivity|].
  now rewrite split_join.
Qed.

Lemma marker_day_sections_witness :
  let day := text ["Day 1: Rome"; "Morning:"; "- Walk"] in
  match_day day = true /\
  parse_section clean_text_spec (snd (day_header_content day)) =
  parse_lines clean_text_spec (tl (split NL day)).
Proof.
  cbv zeta. split; [vm_compute; reflexivity|].
  apply (marker_day_sections clean_text_spec
           (text ["Day 1: Rome"; "Morning:"; "- Walk"])).
  vm_compute; reflexivity.
Defined.

(** ** Paragraphs of the story *)

Lemma fold_bullets (ps : list str) (st : story) :
  fold_left
    (fun st point => st ++ [Paragraph (BULLET :: SPACE :: point) BulletPoint])
    ps st
  = st ++ map (fun p => Paragraph (BULLET :: SPACE :: p) BulletPoint) ps.
Proof.
  revert st; induction ps as [|p ps IH]; intros st; cbn [fold_left map].
  - now rewrite app_nil_r.
  - now rewrite IH, <- app_assoc.
Qed.

Lemma add_section_nil (s : section) :
  add_section [] s =
  (if truthy (header s) then [Paragraph (header s) SectionHeader] else [])
  ++ (if truthy (info s) then [Paragraph (info s) InfoBox] else [])
  ++ map (fun p => Paragraph (BULLET :: SPACE :: p) BulletPoint) (points s)
  ++ [Spacer 1 8].
Proof.
  unfold add_section. rewrite fold_bullets.
  destruct (truthy (header s)), (truthy (info s));
    cbn [app]; now rewrite <- ?app_assoc.
Qed.

Lemma add_day_nil (clean_text : str -> str) (d : str) :
  add_day clean_text [] d =
  if truthy (strip d)
  then Paragraph (fst (day_header_content d)) DayHeader
       :: flat_map (add_section [])
            (parse_section clean_text (snd (day_header_content d)))
       ++ [separator_rule 450 default_separator_color; Spacer 1 10]
  else [].
Proof.
  unfold add_day. destruct (truthy (strip d)); [|reflexivity].
  destruct (day_header_content d) as [h c]. cbn [fst snd].
  rewrite add_separator_app,
    (fold_left_appending add_section add_section_app).
  cbn [app add_separator]. reflexivity.
Qed.

Lemma texts_of_app (sty : style_name) (a b : story) :
  texts_of sty (a ++ b) = texts_of sty a ++ texts_of sty b.
Proof. apply flat_map_app. Qed.

Lemma texts_of_flat_map (A : Type) (sty : style_name) (f : A -> story)
    (l : list A) :
  texts_of sty (flat_map f l) = flat_map (fun x => texts_of sty (f x)) l.
Proof.
  induction l as [|x l IH]; [reflexivity|].
  cbn [flat_map]. now rewrite texts_of_app, IH.
Qed.

Lemma texts_of_bullets (sty : style_name) (ps : list str) :
  texts_of sty
    (map (fun p => Paragraph (BULLET :: SPACE :: p) BulletPoint) ps)
  = if Nat.eqb (style_code BulletPoint) (style_code sty)
    then map (fun p => BULLET :: SPACE :: p) ps else [].
Proof.
  induction ps as [|p ps IH]; cbn [map].
  - now destruct (Nat.eqb _ _).
  - unfold texts_of in *. cbn [flat_map]. rewrite IH.
    now destruct (Nat.eqb _ _).
Qed.

Lemma texts_of_add_section (s : section) :
  texts_of SectionHeader (add_section [] s)
  = (if truthy (header s) then [header s] else [])
  /\ texts_of InfoBox (add_section [] s)
     = (if truthy (info s) then [info s] else [])
  /\ texts_of BulletPoint (add_section [] s)
     = map (fun p => BULLET :: SPACE :: p) (points s).
Proof.
  rewrite add_section_nil, !texts_of_app, !texts_of_bullets.
  destruct (truthy (header s)), (truthy (info s)); cbn;
    now rewrite ?app_nil_r.
Qed.

Lemma flat_map_if_singleton (A B : Type) (f : A -> B) (p : A -> bool)
    (l : list A) :
  flat_map (fun x => if p x then [f x] else []) l = map f (filter p l).
Proof.
  induction l as [|x l IH]; [reflexivity|]. cbn [flat_map filter].
  rewrite IH. now destruct (p x).
Qed.

Lemma filter_truthy_map (A : Type) (f : A -> str) (l : list A) :
  map f (filter (fun x => truthy (f x)) l) = filter truthy (map f l).
Proof.
  induction l as [|x l IH]; [reflexivity|]. cbn [map filter].
  destruct (truthy (f x)); cbn [map]; now rewrite IH.
Qed.

Lemma texts_of_sections (ss : list section) :
  texts_of SectionHeader (flat_map (add_section []) ss)
  = filter truthy (map header ss)
  /\ texts_of InfoBox (flat_map (add_section []) ss)
     = filter truthy (map info ss)
  /\ texts_of BulletPoint (flat_map (add_section []) ss)
     = map (fun p => BULLET :: SPACE :: p) (concat (map points ss)).
Proof.
  rewrite !texts_of_flat_map.
  induction ss as [|s ss (IH1 & IH2 & IH3)]; [now repeat split|].
  destruct (texts_of_add_section s) as (H1 & H2 & H3).
  cbn [flat_map map filter concat].
  rewrite H1, H2, H3, IH1, IH2, IH3, map_app.
  now destruct (truthy (header s)), (truthy (info s)).
Qed.

Lemma texts_of_add_day (clean_text : str -> str) (sty : style_name)
    (d : str) :
  style_code sty <> style_code DayHeader ->
  texts_of sty (add_day clean_text [] d)
  = texts_of sty
      (flat_map (add_section [])
         (if truthy (strip d)
          then parse_section clean_text (snd (day_header_content d))
          else [])).
Proof.
  intros Hs. rewrite add_day_nil.
  destruct (truthy (strip d)); [|reflexivity].
  change (Paragraph ?t DayHeader :: ?l) with ([Paragraph t DayHeader] ++ l).
  rewrite !texts_of_app.
  assert (H1 : forall t, texts_of sty [Paragraph t DayHeader] = []).
  { intros t. unfold texts_of. cbn [flat_map].
    destruct (Nat.eqb_spec (style_code DayHeader) (style_code sty));
      [congruence | reflexivity]. }
  rewrite H1. cbn [app].
  change (texts_of sty
            [separator_rule 450 default_separator_color; Spacer 1 10])
    with (@nil str).
  now rewrite app_nil_r.
Qed.

Lemma texts_of_days (clean_text : str -> str) (sty : style_name)
    (days : list str) :
  style_code sty <> style_code DayHeader ->
  texts_of sty (flat_map (add_day clean_text []) days)
  = texts_of sty
      (flat_map (add_section [])
         (flat_map
            (fun d => if truthy (strip d)
                      then parse_section clean_text
                             (snd (day_header_content d))
                      else []) days)).
Proof.
  intros Hs. induction days as [|d days IH]; [reflexivity|].
  cbn [flat_map].
  now rewrite flat_map_app, !texts_of_app, IH, texts_of_add_day.
Qed.

(** X11.  The story shows the sections of the day blocks in full and in
    order: its section-header paragraphs are their non-empty headers, its
    info-box paragraphs their non-empty infos, and its bullet paragraphs
    their points, each after a bullet sign and a space. *)
Theorem story_shows_every_section (clean_text : str -> str)
    (plan sl dest : str) (sd ed : date) :
  let st := generate_trip_pdf clean_text plan sl dest sd ed in
  let ss := day_sections clean_text plan in
  texts_of SectionHeader st = filter truthy (map header ss)
  /\ texts_of InfoBox st = filter truthy (map info ss)
  /\ texts_of BulletPoint st
     = map (fun p => BULLET :: SPACE :: p) (concat (map points ss)).
Proof.
  cbv zeta. rewrite generate_trip_pdf_app, !texts_of_app.
  rewrite !texts_of_days by discriminate.
  destruct (texts_of_sections (day_sections clean_text plan))
    as (H1 & H2 & H3).
  unfold day_sections in *. now rewrite H1, H2, H3.
Qed.

Lemma truthy_iff_not_nil (A : Type) (l : list A) :
  truthy l = true <-> l <> [].
Proof. destruct l; split; intros; try easy. Qed.

Lemma has_text_add_section (s : section) :
  ~ In [] (points s) -> Forall has_text (add_section [] s).
Proof.
  intros Hs. rewrite add_section_nil.
  apply Forall_app; split; [|apply Forall_app; split;
                              [|apply Forall_app; split]].
  - destruct (truthy (header s)) eqn:E; constructor; [|constructor].
    now apply truthy_iff_not_nil.
  - destruct (truthy (info s)) eqn:E; constructor; [|constructor].
    now apply truthy_iff_not_nil.
  - apply Forall_forall. intros f Hf. apply in_map_iff in Hf as (p & <- & _).
    discriminate.
  - repeat constructor.
Qed.

Lemma day_header_not_nil (d : str) :
  truthy (strip d) = true -> fst (day_header_content d) <> [].
Proof.
  intros _. unfold day_header_content.
  destruct (match_day d) eqn:E; cbn [fst]; [|discriminate].
  destruct d as [|x d]; [discriminate|].
  apply match_day_head in E. subst x.
  change (hd [] (split NL (68%N :: d))) with (first_line (68%N :: d)).
  now rewrite first_line_cons.
Qed.

Lemma has_text_add_day (clean_text : str -> str) (d : str) :
  Forall has_text (add_day clean_text [] d).
Proof.
  rewrite add_day_nil. destruct (truthy (strip d)) eqn:E; [|constructor].
  constructor; [now apply day_header_not_nil|].
  apply Forall_app. split; [|repeat constructor].
  apply Forall_flat_map.
  assert (Hp : Forall solid
                 (parse_section clean_text (snd (day_header_content d)))).
  { apply finish_solid, fold_consume_solid.
    split; [constructor | intros []]. }
  eapply Forall_impl; [|exact Hp].
  intros s. apply has_text_add_section.
Qed.

(** X12.  No paragraph of the story has an empty text. *)
Theorem no_empty_paragraph (clean_text : str -> str)
    (plan sl dest : str) (sd ed : date) :
  Forall has_text (generate_trip_pdf clean_text plan sl dest sd ed).
Proof.
  rewrite generate_trip_pdf_app. apply Forall_app. split.
  - repeat constructor; discriminate.
  - apply Forall_flat_map, Forall_forall. intros d _.
    apply has_text_add_day.
Qed.

(** ** Separators *)

Lemma count_app (a b : story) :
  length (filter is_separator (a ++ b)) =
  length (filter is_separator a) + length (filter is_separator b).
Proof. now rewrite filter_app, length_app. Qed.

Lemma no_separator_in_section (s : section) :
  filter is_separator (add_section [] s) = [].
Proof.
  rewrite add_section_nil, !filter_app.
  assert (H : filter is_separator
                (map (fun p => Paragraph (BULLET :: SPACE :: p) BulletPoint)
                   (points s)) = []).
  { induction (points s) as [|p ps IH]; [reflexivity | exact IH]. }
  rewrite H.
  now destruct (truthy (header s)), (truthy (info s)).
Qed.

Lemma no_separator_in_sections (ss : list section) :
  filter is_separator (flat_map (add_section []) ss) = [].
Proof.
  induction ss as [|s ss IH]; [reflexivity|].
  cbn [flat_map]. now rewrite filter_app, no_separator_in_section, IH.
Qed.

Lemma separators_add_day (clean_text : str -> str) (d : str) :
  length (filter is_separator (add_day clean_text [] d))
  = length (day_headers (add_day clean_text [] d)).
Proof.
  rewrite day_headers_add_day, add_day_nil.
  destruct (truthy (strip d)); [|reflexivity].
  cbn [filter is_separator]. rewrite filter_app, no_separator_in_sections.
  reflexivity.
Qed.

Lemma add_day_ends (clean_text : str -> str) (st : story) (d : str) :
  ends_with_separator st -> ends_with_separator (add_day clean_text st d).
Proof.
  intros H. unfold add_day. destruct (truthy (strip d)); [|assumption].
  destruct (day_header_content d) as [h c].
  unfold add_separator. eexists. rewrite <- app_assoc. reflexivity.
Qed.

Lemma fold_add_day_ends (clean_text : str -> str) (days : list str)
    (st : story) :
  ends_with_separator st ->
  ends_with_separator (fold_left (add_day clean_text) days st).
Proof.
  revert st; induction days as [|d days IH]; intros st H; [assumption|].
  cbn [fold_left]. now apply IH, add_day_ends.
Qed.

(** X13.  The story has one separator rule for the front matter and one for
    each day block, and it ends with a separator: the rule and its
    spacer. *)
Theorem separator_after_every_day (clean_text : str -> str)
    (plan sl dest : str) (sd ed : date) :
  let st := generate_trip_pdf clean_text plan sl dest sd ed in
  length (filter is_separator st) = S (length (day_headers st))
  /\ ends_with_separator st.
Proof.
  cbv zeta. split.
  - rewrite generate_trip_pdf_app, count_app, day_headers_app, length_app.
    change (length (filter is_separator (front_matter sl dest sd ed)))
      with 1.
    change (length (day_headers (front_matter sl dest sd ed))) with 0.
    cbn [Nat.add]. f_equal.
    induction (re_split_day plan) as [|d days IH]; [reflexivity|].
    cbn [flat_map].
    now rewrite count_app, day_headers_app, length_app, IH,
      separators_add_day.
  - unfold generate_trip_pdf. apply fold_add_day_ends.
    eexists. unfold front_matter, add_separator.
    rewrite <- app_assoc. reflexivity.
Qed.

(** ** The summary table *)

(** X15.  Whatever the plan, the summary table of the story has six rows of
    two cells, as many as its column widths, and shows the two locations
    and the two dates as they were given. *)
Theorem summary_table_rows (clean_text : str -> str)
    (plan sl dest : str) (sd ed : date) :
  let st := generate_trip_pdf clean_text plan sl dest sd ed in
  shown_value (lit "Departure") st = Some (CellStr sl)
  /\ shown_value (lit "Destination") st = Some (CellStr dest)
  /\ shown_value (lit "Start Date") st = Some (CellDate sd)
  /\ shown_value (lit "End Date") st = Some (CellDate ed)
  /\ exists rows widths heights cmds,
       nth_error st 2 = Some (Table rows widths heights cmds)
       /\ length rows = 6
       /\ Forall (fun row => length row = length widths) rows.
Proof.
  cbv zeta. rewrite generate_trip_pdf_app.
  repeat (split; [reflexivity|]).
  do 4 eexists. split; [reflexivity|]. split; [reflexivity|].
  repeat constructor.
Qed.

(** ** A blank plan *)

Lemma lstrip_by_nil_all (p : char -> bool) (s : str) :
  lstrip_by p s = [] -> forallb p s = true.
Proof.
  induction s as [|c s IH]; [reflexivity|]. cbn [lstrip_by forallb].
  destruct (p c); [exact IH | discriminate].
Qed.

Lemma strip_nil_all_space (s : str) :
  strip s = [] -> forallb isspace s = true.
Proof.
  unfold strip, rstrip_by. intros H.
  apply (f_equal (@rev char)) in H. rewrite rev_involutive in H.
  cbn [rev] in H. apply lstrip_by_nil_all in H.
  destruct (lstrip_by_spec isspace s) as (pre & Hs & Hpre & _).
  rewrite Hs, forallb_app. apply andb_true_iff. split.
  - apply forallb_forall. rewrite Forall_forall in Hpre. exact Hpre.
  - rewrite forallb_forall in *. intros c Hc. apply H. now apply in_rev in Hc.
Qed.

Lemma space_no_match (c : char) (s : str) :
  isspace c = true -> match_day (c :: s) = false.
Proof. intros H. apply no_match_head. intros ->. discriminate. Qed.

Lemma all_space_split_from (s : str) :
  forallb isspace s = true -> split_from s = (s, []) /\ match_day s = false.
Proof.
  induction s as [|c s IH]; [now split|].
  cbn [forallb]. intros H. apply andb_true_iff in H as [Hc Hs].
  destruct (IH Hs) as [E Hm]. split; [|now apply space_no_match].
  now rewrite split_from_cons, Hm, E.
Qed.

(** X10.  For an empty or blank plan the story is the front matter and
    nothing else: six flowables. *)
Theorem blank_plan_front_matter_only (clean_text : str -> str)
    (plan sl dest : str) (sd ed : date) :
  truthy (strip plan) = false ->
  generate_trip_pdf clean_text plan sl dest sd ed
  = front_matter sl dest sd ed
  /\ length (generate_trip_pdf clean_text plan sl dest sd ed) = 6.
Proof.
  intros Hb.
  assert (Hs : strip plan = []) by now destruct (strip plan).
  destruct (all_space_split_from _ (strip_nil_all_space _ Hs)) as [E Hm].
  assert (Hg : generate_trip_pdf clean_text plan sl dest sd ed
               = front_matter sl dest sd ed).
  { unfold generate_trip_pdf, re_split_day. rewrite E, Hm.
    cbn [fold_left]. unfold add_day. now rewrite Hb. }
  split; [exact Hg | now rewrite Hg].
Qed.

Lemma blank_plan_front_matter_only_witness :
  let plan := text ["  "; ""] in
  truthy (strip plan) = false /\
  generate_trip_pdf clean_text_spec plan (lit "A") (lit "B") june_1 june_1
  = front_matter (lit "A") (lit "B") june_1 june_1
  /\ length
       (generate_trip_pdf clean_text_spec plan (lit "A") (lit "B")
          june_1 june_1) = 6.
Proof.
  cbv zeta. split; [vm_compute; reflexivity|].
  apply (blank_plan_front_matter_only clean_text_spec (text ["  "; ""])).
  vm_compute; reflexivity.
Defined.

(** ** Days appended to a plan *)

Lemma after_literal_before_D (w u b : str) :
  ~ In 68%N w ->
  match after_literal w (u ++ 68%N :: b) with
  | Some r => exists r', after_literal w u = Some r' /\ r = r' ++ 68%N :: b
  | None => after_literal w u = None
  end.
Proof.
  revert u; induction w as [|a w IH]; intros u Hw.
  - cbn [after_literal]. now exists u.
  - assert (Ha : a <> 68%N) by (intros ->; apply Hw; now left).
    assert (Hw' : ~ In 68%N w) by (intros Hin; apply Hw; now right).
    destruct u as [|c u]; cbn [app after_literal].
    + destruct (N.eqb_spec a 68%N); [contradiction | reflexivity].
    + destruct (a =? c)%N; [now apply IH | reflexivity].
Qed.

Lemma digits_colon_before_D (v b : str) :
  digits_colon (v ++ 68%N :: b) = digits_colon v.
Proof.
  induction v as [|c v IH]; [reflexivity|].
  cbn [app digits_colon]. now rewrite IH.
Qed.

Lemma digits1_colon_before_D (v b : str) :
  digits1_colon (v ++ 68%N :: b) = digits1_colon v.
Proof.
  destruct v as [|c v]; [reflexivity|].
  cbn [app digits1_colon]. now rewrite digits_colon_before_D.
Qed.

Lemma match_alt_before_D (a : char) (w u b : str) :
  u <> [] -> ~ In 68%N w ->
  match_alt (a :: w) (u ++ 68%N :: b) = match_alt (a :: w) u.
Proof.
  intros Hu Hw. destruct u as [|c u]; [contradiction|].
  unfold match_alt. cbn [app after_literal].
  destruct (a =? c)%N; [|reflexivity].
  pose proof (after_literal_before_D w u b Hw) as H.
  destruct (after_literal w (u ++ 68%N :: b)) as [r|].
  - destruct H as (r' & -> & ->). apply digits1_colon_before_D.
  - now rewrite H.
Qed.

(** A marker that starts before another one ends before it. *)
Lemma match_day_before_marker (u b : str) :
  u <> [] -> match_day b = true -> match_day (u ++ b) = match_day u.
Proof.
  intros Hu Hb. destruct b as [|x b]; [discriminate|].
  apply match_day_head in Hb. subst x. unfold match_day.
  cbn [lit map list_ascii_of_string].
  rewrite !match_alt_before_D; try assumption; try reflexivity;
    vm_compute; intuition discriminate.
Qed.

Lemma split_from_before_marker (a b : str) :
  a <> [] -> match_day b = true ->
  split_from (a ++ b) =
  (fst (split_from a),
   snd (split_from a) ++ fst (split_from b) :: snd (split_from b)).
Proof.
  intros Ha Hb. induction a as [|c a IH]; [contradiction|].
  cbn [app]. rewrite !split_from_cons.
  destruct a as [|c' a].
  - cbn [app]. rewrite Hb. reflexivity.
  - rewrite match_day_before_marker by (assumption || discriminate).
    rewrite IH by discriminate.
    now destruct (match_day (c' :: a)).
Qed.

Lemma re_split_day_before_marker (a b : str) :
  match_day b = true ->
  re_split_day (a ++ b) = re_split_day a ++ tl (re_split_day b).
Proof.
  intros Hb. destruct a as [|c a].
  - cbn [app]. rewrite (re_split_day_unfold b), Hb. reflexivity.
  - rewrite !re_split_day_unfold, Hb.
    rewrite match_day_before_marker by (assumption || discriminate).
    rewrite split_from_before_marker by (assumption || discriminate).
    cbn [fst snd tl].
    now destruct (match_day (c :: a)).
Qed.

(** X9.  A text that starts with a marker, put after a plan, leaves the
    chunks of the plan as they are and adds its own: the story of the
    whole is the story of the plan followed by the blocks of the added
    days. *)
Theorem appended_day_appends_blocks (clean_text : str -> str)
    (plan more sl dest : str) (sd ed : date) :
  match_day more = true ->
  re_split_day (plan ++ more) = re_split_day plan ++ tl (re_split_day more)
  /\ generate_trip_pdf clean_text (plan ++ more) sl dest sd ed =
     generate_trip_pdf clean_text plan sl dest sd ed
     ++ flat_map (add_day clean_text []) (tl (re_split_day more)).
Proof.
  intros Hm. split; [now apply re_split_day_before_marker|].
  rewrite !generate_trip_pdf_app, re_split_day_before_marker by assumption.
  now rewrite flat_map_app, app_assoc.
Qed.

Lemma appended_day_appends_blocks_witness :
  let plan := text ["Pack light."; "Day 1:"; "- Walk"; ""] in
  let more := text ["Day 2:"; "- Rest"] in
  match_day more = true /\
  re_split_day (plan ++ more) = re_split_day plan ++ tl (re_split_day more)
  /\ generate_trip_pdf clean_text_spec (plan ++ more) (lit "A") (lit "B")
       june_1 june_1 =
     generate_trip_pdf clean_text_spec plan (lit "A") (lit "B") june_1 june_1
     ++ flat_map (add_day clean_text_spec []) (tl (re_split_day more)).
Proof.
  cbv zeta. split; [vm_compute; reflexivity|].
  apply (appended_day_appends_blocks clean_text_spec
           (text ["Pack light."; "Day 1:"; "- Walk"; ""])
           (text ["Day 2:"; "- Rest"])).
  vm_compute; reflexivity.
Defined.

(** ** The duration and the calendar *)

Section Calendar.
Local Open Scope Z_scope.

Lemma month_cases (m : Z) :
  1 <= m <= 12 ->
  m = 1 \/ m = 2 \/ m = 3 \/ m = 4 \/ m = 5 \/ m = 6 \/ m = 7 \/ m = 8 \/
  m = 9 \/ m = 10 \/ m = 11 \/ m = 12.
Proof. lia. Qed.

Ltac table_lookups :=
  repeat match goal with
  | |- context [nth (Z.to_nat ?m) ?t 0] =>
      let v := eval vm_compute in (nth (Z.to_nat m) t 0) in
      change (nth (Z.to_nat m) t 0) with v
  end.

Ltac closed_tests :=
  repeat match goal with
  | |- context [(?a =? ?b)] =>
      let v := eval vm_compute in (a =? b) in
      change (a =? b) with v
  | |- context [(?a <? ?b)] =>
      let v := eval vm_compute in (a <? b) in
      change (a <? b) with v
  end.

Ltac each_month H :=
  apply month_cases in H;
  repeat (destruct H as [H | H]); subst.

Lemma days_before_year_succ (y : Z) :
  days_before_year (y + 1) =
  days_before_year y + 365 + (if is_leap y then 1 else 0).
Proof.
  unfold days_before_year, is_leap.
  replace (y + 1 - 1) with y by lia.
  destruct (Z.eqb_spec (y mod 4) 0), (Z.eqb_spec (y mod 100) 0),
    (Z.eqb_spec (y mod 400) 0); cbn [negb andb orb];
    Z.div_mod_to_equations; lia.
Qed.

Lemma days_before_year_mono (a b : Z) :
  a <= b -> days_before_year a <= days_before_year b.
Proof.
  unfold days_before_year. intros H.
  Z.div_mod_to_equations. lia.
Qed.

Lemma day_of_year_bounds (y m d : Z) :
  1 <= m <= 12 -> 1 <= d <= days_in_month y m ->
  1 <= days_before_month y m + d <= 365 + (if is_leap y then 1 else 0).
Proof.
  intros Hm. unfold days_before_month, days_in_month.
  each_month Hm; table_lookups; closed_tests;
    destruct (is_leap y); cbn [andb]; lia.
Qed.

Lemma day_of_year_month_lt (y m1 d1 m2 d2 : Z) :
  1 <= m1 <= 12 -> 1 <= m2 <= 12 -> m1 < m2 ->
  1 <= d1 <= days_in_month y m1 -> 1 <= d2 ->
  days_before_month y m1 + d1 < days_before_month y m2 + d2.
Proof.
  intros H1 H2. unfold days_before_month, days_in_month.
  each_month H1; each_month H2; try lia;
    table_lookups; closed_tests; destruct (is_leap y); cbn [andb]; lia.
Qed.

Lemma valid_date_fields (d : date) :
  valid_date d = true ->
  1 <= month d <= 12 /\ 1 <= day d <= days_in_month (year d) (month d).
Proof.
  unfold valid_date. rewrite !andb_true_iff, !Z.leb_le. lia.
Qed.

Lemma toordinal_lt (a b : date) :
  valid_date a = true -> valid_date b = true ->
  date_compare a b = Lt -> toordinal a < toordinal b.
Proof.
  intros Ha Hb. apply valid_date_fields in Ha as [Hma Hda].
  apply valid_date_fields in Hb as [Hmb Hdb].
  unfold date_compare, toordinal.
  destruct (Z.compare_spec (year a) (year b)) as [Ey | Hy | Hy];
    [| intros _ | discriminate].
  - rewrite Ey in *.
    destruct (Z.compare_spec (month a) (month b)) as [Em | Hm | Hm];
      [| intros _ | discriminate].
    + rewrite Em.
      destruct (Z.compare_spec (day a) (day b)); [discriminate | | discriminate].
      intros _. lia.
    + assert (Hdb' : 1 <= day b) by lia.
      pose proof (@day_of_year_month_lt (year b) (month a) (day a)
                    (month b) (day b) Hma Hmb Hm Hda Hdb').
      lia.
  - pose proof (@day_of_year_bounds (year a) (month a) (day a) Hma Hda).
    pose proof (@day_of_year_bounds (year b) (month b) (day b) Hmb Hdb).
    pose proof (days_before_year_succ (year a)).
    assert (Hy' : year a + 1 <= year b) by lia.
    pose proof (@days_before_year_mono (year a + 1) (year b) Hy').
    destruct (is_leap (year a)), (is_leap (year b)); lia.
Qed.

Lemma date_compare_antisym (a b : date) :
  date_compare b a = CompOpp (date_compare a b).
Proof.
  unfold date_compare.
  rewrite (Z.compare_antisym (year a) (year b)),
    (Z.compare_antisym (month a) (month b)),
    (Z.compare_antisym (day a) (day b)).
  destruct (year a ?= year b), (month a ?= month b), (day a ?= day b);
    reflexivity.
Qed.

Lemma date_compare_eq (a b : date) :
  date_compare a b = Eq -> a = b.
Proof.
  unfold date_compare. destruct a as [ya ma da], b as [yb mb db].
  cbn [year month day].
  destruct (Z.compare_spec ya yb) as [Ey | _ | _]; try discriminate.
  destruct (Z.compare_spec ma mb) as [Em | _ | _]; try discriminate.
  intros Ed. apply Z.compare_eq in Ed. now subst.
Qed.

(** X14.  For two dates that [datetime.date] accepts, the duration compares
    with 1 as the end date compares with the start date: it is 1 for equal
    dates, more for a later end, and 0 or less for an end before the
    start, which nothing checks. *)
Theorem duration_follows_calendar (sd ed : date) :
  valid_date sd = true -> valid_date ed = true ->
  (days_between ed sd + 1 ?= 1) = date_compare ed sd.
Proof.
  intros Hs He. unfold days_between.
  destruct (date_compare ed sd) eqn:E.
  - apply date_compare_eq in E. subst. apply Z.compare_eq_iff. lia.
  - apply (@toordinal_lt ed sd He Hs) in E. apply Z.compare_lt_iff. lia.
  - assert (E' : date_compare sd ed = Lt)
      by now rewrite date_compare_antisym, E.
    apply (@toordinal_lt sd ed Hs He) in E'. apply Z.compare_gt_iff. lia.
Qed.

Lemma duration_follows_calendar_witness :
  valid_date jan_1 = true /\ valid_date jan_3 = true /\
  (days_between jan_3 jan_1 + 1 ?= 1) = date_compare jan_3 jan_1.
Proof.
  split; [vm_compute; reflexivity|]. split; [vm_compute; reflexivity|].
  apply (@duration_follows_calendar jan_1 jan_3); vm_compute; reflexivity.
Defined.

End Calendar.

(** ** The style sheet *)

Lemma assoc_app (V : Type) (k : string) (a b : list (string * V)) :
  assoc k (a ++ b) =
  match assoc k a with Some v => Some v | None => assoc k b end.
Proof.
  induction a as [|[k' v] a IH]; [reflexivity|]. cbn [app assoc].
  now destruct (String.eqb k k').
Qed.

Lemma assoc_registered_none (k : string) (l : list paragraph_style) :
  ~ In k (map ps_name l) -> assoc k (registered l) = None.
Proof.
  unfold registered. induction l as [|s l IH]; intros H; [reflexivity|].
  cbn [map rev]. rewrite assoc_app, IH.
  - cbn [assoc]. destruct (String.eqb_spec k (ps_name s)) as [E|_];
      [|reflexivity].
    exfalso. apply H. now left.
  - intros Hin. apply H. now right.
Qed.

Lemma sheet_get_none (sh : stylesheet) (k : string) :
  sheet_get sh k = None <->
  assoc k (byName sh) = None /\ assoc k (byAlias sh) = None.
Proof.
  unfold sheet_get. destruct (assoc k (byAlias sh)); split.
  - discriminate.
  - now intros [_ H].
  - now split.
  - now intros [H _].
Qed.

Lemma add_all_ok (l : list paragraph_style) (sample : stylesheet) :
  NoDup (map ps_name l) ->
  (forall s, In s l -> sheet_get sample (ps_name s) = None) ->
  fold_left add_next l (Some sample) =
  Some {| byName := registered l ++ byName sample;
          byAlias := byAlias sample |}.
Proof.
  revert sample. induction l as [|s l IH]; intros sample Hnd Hfree.
  - now destruct sample.
  - cbn [map] in Hnd. inversion Hnd as [|? ? Hnotin Hnd']; subst.
    cbn [fold_left add_next]. unfold sheet_add.
    destruct (proj1 (sheet_get_none sample (ps_name s))
                (Hfree s (or_introl eq_refl))) as [H1 H2].
    rewrite H1, H2. rewrite IH; [|assumption|].
    + cbn [byName byAlias]. unfold registered. cbn [map rev].
      now rewrite <- app_assoc.
    + intros s' Hs'. apply sheet_get_none. cbn [byName byAlias].
      destruct (proj1 (sheet_get_none sample (ps_name s'))
                  (Hfree s' (or_intror Hs'))) as [H1' H2'].
      split; [|assumption]. cbn [assoc].
      destruct (String.eqb_spec (ps_name s') (ps_name s)) as [E|_];
        [|assumption].
      exfalso. apply Hnotin. rewrite <- E. now apply in_map.
Qed.

Lemma add_next_none (l : list paragraph_style) :
  fold_left add_next l None = None.
Proof. induction l as [|s l IH]; [reflexivity | exact IH]. Qed.

Lemma sheet_add_keeps (sh sh' : stylesheet) (s : paragraph_style)
    (k : string) :
  sheet_add sh s = Some sh' ->
  sheet_get sh k <> None -> sheet_get sh' k <> None.
Proof.
  unfold sheet_add.
  destruct (assoc (ps_name s) (byName sh)); [discriminate|].
  destruct (assoc (ps_name s) (byAlias sh)); [discriminate|].
  intros E; inversion E; subst; clear E.
  unfold sheet_get. cbn [byName byAlias assoc].
  destruct (assoc k (byAlias sh)); [easy|].
  now destruct (String.eqb k (ps_name s)).
Qed.

Lemma add_all_clash (l : list paragraph_style) (sh : stylesheet)
    (s : paragraph_style) :
  In s l -> sheet_get sh (ps_name s) <> None ->
  fold_left add_next l (Some sh) = None.
Proof.
  revert sh. induction l as [|s' l IH]; intros sh Hin Hs; [destruct Hin|].
  cbn [fold_left add_next].
  destruct Hin as [-> | Hin].
  - assert (E : sheet_add sh s = None).
    { unfold sheet_add. unfold sheet_get in Hs.
      destruct (assoc (ps_name s) (byAlias sh));
        destruct (assoc (ps_name s) (byName sh)); try reflexivity.
      now contradiction Hs. }
    rewrite E. apply add_next_none.
  - destruct (sheet_add sh s') as [sh'|] eqn:E; [|apply add_next_none].
    apply IH; [assumption|]. exact (@sheet_add_keeps sh sh' s' _ E Hs).
Qed.

(** X16.  On a sheet that has none of the eight keys, [create_custom_styles]
    raises nothing; in the sheet it returns, each of the eight keys gives
    the style defined for it, and every other key gives what it gave
    before. *)
Theorem custom_styles_registered (sample : stylesheet) :
  (forall s, sheet_get sample (style_key s) = None) ->
  exists sh,
    create_custom_styles sample = Some sh
    /\ (forall s, sheet_get sh (style_key s) = Some (custom_style s))
    /\ (forall key, ~ In key (map style_key all_styles) ->
        sheet_get sh key = sheet_get sample key).
Proof.
  intros Hfree. eexists. split; [|split].
  - unfold create_custom_styles. apply add_all_ok.
    + repeat constructor; cbn; intuition discriminate.
    + intros s Hs. apply in_map_iff in Hs as (sn & <- & _). apply Hfree.
  - intros s. unfold sheet_get. cbn [byName byAlias].
    destruct (proj1 (sheet_get_none sample (style_key s)) (Hfree s))
      as [H1 H2].
    rewrite H2, assoc_app.
    now destruct s.
  - intros key Hkey. unfold sheet_get. cbn [byName byAlias].
    rewrite assoc_app, assoc_registered_none; [reflexivity|].
    now rewrite map_map.
Qed.

Lemma custom_styles_registered_witness :
  let sample :=
    {| byName := [("Normal", {| ps_name := "Normal"; ps_attrs := [] |})];
       byAlias := [] |} in
  (forall s, sheet_get sample (style_key s) = None) /\
  exists sh,
    create_custom_styles sample = Some sh
    /\ (forall s, sheet_get sh (style_key s) = Some (custom_style s))
    /\ (forall key, ~ In key (map style_key all_styles) ->
        sheet_get sh key = sheet_get sample key).
Proof.
  cbv zeta.
  assert (H : forall s,
             sheet_get
               {| byName :=
                    [("Normal", {| ps_name := "Normal"; ps_attrs := [] |})];
                  byAlias := [] |} (style_key s) = None)
    by (intros s; destruct s; vm_compute; reflexivity).
  split; [exact H|].
  exact (custom_styles_registered _ H).
Defined.

(** X17.  On a sheet that already has one of the eight keys, as a name or as
    an alias, [create_custom_styles] raises a [KeyError]. *)
Theorem custom_styles_clash (sample : stylesheet) (s : style_name) :
  sheet_get sample (style_key s) <> None ->
  create_custom_styles sample = None.
Proof.
  intros H. unfold create_custom_styles.
  apply (@add_all_clash _ sample (custom_style s)); [|exact H].
  apply in_map. destruct s; cbn; tauto.
Qed.

Lemma custom_styles_clash_witness :
  let sample :=
    {| byName := [("DayHeader", {| ps_name := "DayHeader"; ps_attrs := [] |})];
       byAlias := [] |} in
  sheet_get sample (style_key DayHeader) <> None /\
  create_custom_styles sample = None.
Proof.
  cbv zeta.
  assert (H : sheet_get
                {| byName :=
                     [("DayHeader",
                       {| ps_name := "DayHeader"; ps_attrs := [] |})];
                   byAlias := [] |} (style_key DayHeader) <> None)
    by (vm_compute; discriminate).
  split; [exact H|].
  exact (custom_styles_clash _ DayHeader H).
Defined.
